(** * Batch geocoding of dm-Markt addresses: a shallow embedding

    This development embeds [scripts/batch_geocode_google.py] and proves
    properties of its address extractor ([parse_sheet]), its CSV cache
    ([load_or_create_cache], [save_cache]), its provider adapter
    ([geocode_one] under the tenacity [retry] decorator) and its driver
    ([main]).

    Conventions.
    - A Python [str] is a [string]; each [ascii] stands for the code point
      of the same number (the Latin-1 range).
    - A Python exception is a value of [exn]; code that may raise returns
      an [outcome].
    - The outside world is explicit: the workbook is a map from sheet names
      to rows of cells, the cache file is an optional file content, the
      geocoding provider is a function of the calls made so far and the
      address, and every provider call and every pause is logged in a
      trace of [event]s. *)

From Stdlib Require Import List String Ascii Bool Arith ZArith QArith Lia.
From Stdlib Require Import Decimal DecimalString.
Import ListNotations.

Local Close Scope Q_scope.
Local Open Scope nat_scope.
Local Open Scope string_scope.
Local Open Scope list_scope.

(** ** Python strings *)

Module PyStr.

(** [str.isspace] on the code points below 256. *)
Definition is_space (c : ascii) : bool :=
  let n := nat_of_ascii c in
  (((9 <=? n) && (n <=? 13)) || ((28 <=? n) && (n <=? 31))
   || (n =? 32) || (n =? 133) || (n =? 160))%nat.

Fixpoint lstrip (s : string) : string :=
  match s with
  | EmptyString => EmptyString
  | String c t => if is_space c then lstrip t else s
  end.

Fixpoint rstrip (s : string) : string :=
  match s with
  | EmptyString => EmptyString
  | String c t =>
      match rstrip t with
      | EmptyString => if is_space c then EmptyString else String c EmptyString
      | t' => String c t'
      end
  end.

(** [s.strip()] *)
Definition strip (s : string) : string := rstrip (lstrip s).

(** [s.split(sep)] for a one-character separator: never an empty list. *)
Fixpoint split (sep : ascii) (s : string) : list string :=
  match s with
  | EmptyString => [EmptyString]
  | String c t =>
      if Ascii.eqb c sep then EmptyString :: split sep t
      else match split sep t with
           | h :: r => String c h :: r
           | [] => [String c EmptyString]
           end
  end.

(** [sub in s] *)
Fixpoint contains (sub s : string) : bool :=
  prefix sub s ||
  match s with
  | EmptyString => false
  | String _ t => contains sub t
  end.

(** [c in s] for one character, as a proposition. *)
Fixpoint has_char (c : ascii) (s : string) : Prop :=
  match s with
  | EmptyString => False
  | String a t => a = c \/ has_char c t
  end.

(** [str(n)] for a Python [int]. *)
Definition str_int (n : Z) : string := NilZero.string_of_int (Z.to_int n).

(** [x in xs] for a list of strings. *)
Definition str_in (x : string) (xs : list string) : bool :=
  existsb (String.eqb x) xs.

End PyStr.

(** ** Exceptions and outcomes *)

(** The exceptions the script can see.  [Failure msg] is any exception
    class other than the three named ones, carrying the text that [str(e)]
    gives; [KeyError] carries its rendered argument. *)
Inductive exn : Type :=
| RateLimitError (msg : string)
| KeyError (shown : string)
| RetryError
| Failure (msg : string).

(** [str(e)] *)
Definition str_exn (e : exn) : string :=
  match e with
  | RateLimitError msg => msg
  | KeyError shown => shown
  | RetryError => "RetryError"
  | Failure msg => msg
  end.

(** [isinstance(e, RateLimitError)] *)
Definition is_rate_limit (e : exn) : bool :=
  match e with
  | RateLimitError _ => true
  | _ => false
  end.

Inductive outcome (A : Type) : Type :=
| Return (a : A)
| Raise (e : exn).
Arguments Return {A} a.
Arguments Raise {A} e.

Definition bind {A B : Type} (m : outcome A) (k : A -> outcome B) : outcome B :=
  match m with
  | Return a => k a
  | Raise e => Raise e
  end.

Notation "x <- m ;; k" := (bind m (fun x => k))
  (at level 61, m at next level, right associativity).

(** ** The address extractor *)

(** A spreadsheet cell as pandas hands it over.  The script looks at a
    cell only through [pd.isna] and [str]. [Float w f] is a float that
    Python prints in positional notation, with integer part [w] and
    fraction digits [f] (so [1067.0] is [Float 1067 "0"]). *)
Inductive cell : Type :=
| NaN
| Text (s : string)
| Int (n : Z)
| Float (whole : Z) (frac : string).

Definition isna (c : cell) : bool :=
  match c with
  | NaN => true
  | _ => false
  end.

(** [str(c)] *)
Definition py_str (c : cell) : string :=
  match c with
  | NaN => "nan"
  | Text s => s
  | Int n => PyStr.str_int n
  | Float w f => PyStr.str_int w ++ "." ++ f
  end.

(** A row of the frame read with [header=None]: columns 0, 1, 2, ... *)
Definition row := list cell.

(** [row[i]]; a column the frame does not have is a [KeyError]. *)
Definition getitem (r : row) (i : nat) : outcome cell :=
  match nth_error r i with
  | Some c => Return c
  | None => Raise (KeyError (PyStr.str_int (Z.of_nat i)))
  end.

(** One dict appended to [rows] in [parse_sheet], with the keys of lines
    44 to 49. *)
Module Addr.
Record t : Type := mk {
  dm_code : string;
  Strasse : string;
  PLZ : string;
  Ort : string;
  Country : string;
  address_for_geocoding : string
}.
End Addr.

Definition AddressRecord := Addr.t.

(** The f-string of line 42. *)
Definition format_address (street_str plz city country_label : string) : string :=
  street_str ++ ", " ++ plz ++ " " ++ city ++ ", " ++ country_label.

Definition skip_markers : list string := ["dm-Markt"; "Gesamt"].

(** The body of the [for] loop of [parse_sheet]: [None] is [continue],
    [Some r] is the dict appended to [rows]. *)
Definition parse_row (country_label : string) (r : row)
  : outcome (option AddressRecord) :=
  first <- getitem r 0 ;;
  if isna first || PyStr.str_in (PyStr.strip (py_str first)) skip_markers
  then Return None
  else
    street <- getitem r 3 ;;
    if isna street || String.eqb (PyStr.strip (py_str street)) "Strasse"
    then Return None
    else
      c4 <- getitem r 4 ;;
      let plz := if negb (isna c4)
                 then hd EmptyString (PyStr.split "." (py_str c4))
                 else EmptyString in
      c5 <- getitem r 5 ;;
      let city := if negb (isna c5) then py_str c5 else EmptyString in
      let code := PyStr.strip (py_str first) in
      let street_str := PyStr.strip (py_str street) in
      let addr := format_address street_str plz city country_label in
      Return (Some (Addr.mk code street_str plz city country_label addr)).

(** The loop of [parse_sheet] over the rows of the frame, with the list
    [rows] built so far. *)
Fixpoint parse_loop (country_label : string) (df : list row)
  (rows : list AddressRecord) : outcome (list AddressRecord) :=
  match df with
  | [] => Return rows
  | r :: df' =>
      o <- parse_row country_label r ;;
      match o with
      | None => parse_loop country_label df' rows
      | Some rec => parse_loop country_label df' (rows ++ [rec])
      end
  end.

(** A workbook: the rows of each sheet it has. *)
Definition workbook := string -> option (list row).

(** [pd.read_excel(xlsx_path, sheet_name=sheet_name, header=None)] *)
Definition read_excel (xlsx : workbook) (sheet_name : string)
  : outcome (list row) :=
  match xlsx sheet_name with
  | Some df => Return df
  | None => Raise (Failure ("Worksheet named '" ++ sheet_name ++ "' not found"))
  end.

Definition parse_sheet (xlsx : workbook) (sheet_name country_label : string)
  : outcome (list AddressRecord) :=
  df <- read_excel xlsx sheet_name ;;
  parse_loop country_label df [].

(** ** The cache *)

(** A coordinate.  The script never computes with one; it stores it and
    asks whether it is null. *)
Definition coord := Q.

(** A row of the cache frame, with the columns of line 59.  A null cell
    ([None], [NaN]) is [None]. *)
Module Entry.
Record t : Type := mk {
  address_for_geocoding : string;
  latitude : option coord;
  longitude : option coord;
  place_id : option string;
  geocode_status : string
}.
End Entry.

Definition CacheEntry := Entry.t.

(** What is at [cache_path]: [None] when no such file exists, else what
    [pd.read_csv] makes of the file, a frame or an exception. *)
Definition cache_file := option (outcome (list CacheEntry)).

Definition load_or_create_cache (cache_path : cache_file)
  : outcome (list CacheEntry) :=
  match cache_path with
  | Some read_csv =>
      match read_csv with
      | Return df => Return df
      | Raise _ => Return []
      end
  | None => Return []
  end.

(** [df.drop_duplicates(subset=["address_for_geocoding"], keep="last")] *)
Fixpoint drop_duplicates_last (df : list CacheEntry) : list CacheEntry :=
  match df with
  | [] => []
  | e :: rest =>
      if existsb (fun e' => String.eqb (Entry.address_for_geocoding e')
                                       (Entry.address_for_geocoding e)) rest
      then drop_duplicates_last rest
      else e :: drop_duplicates_last rest
  end.

(** [save_cache]: the new content of the file at [cache_path].  The file
    is represented by the frame that [to_csv] wrote; what [pd.read_csv]
    re-infers from the text of a cell (a place id of digits, a text such
    as "NA") is not modelled. *)
Definition save_cache (cache_df : list CacheEntry) : cache_file :=
  Some (Return (drop_duplicates_last cache_df)).

(** A row of [combined.merge(cache_df, on="address_for_geocoding",
    how="left")]: the record's columns and the matched cache row's, all
    null when no cache row matches. *)
Definition merged_row := (AddressRecord * option CacheEntry)%type.

Definition matches (r : AddressRecord) (e : CacheEntry) : bool :=
  String.eqb (Entry.address_for_geocoding e) (Addr.address_for_geocoding r).

(** The left join: the left rows in order, each once per matching right
    row, or once with nulls. *)
Definition merge (combined : list AddressRecord) (cache_df : list CacheEntry)
  : list merged_row :=
  flat_map (fun r =>
    match filter (matches r) cache_df with
    | [] => [(r, None)]
    | ms => map (fun e => (r, Some e)) ms
    end) combined.

(** [row["latitude"]] of a merged row. *)
Definition merged_latitude (m : merged_row) : option coord :=
  match snd m with
  | Some e => Entry.latitude e
  | None => None
  end.

Definition is_null {A : Type} (o : option A) : bool :=
  match o with
  | Some _ => false
  | None => true
  end.

(** [merged[merged["latitude"].isna()]] *)
Definition select_to_fetch (merged : list merged_row) : list merged_row :=
  filter (fun m => is_null (merged_latitude m)) merged.

(** ** The provider and the trace *)

(** A result of the Geocoding API, as far as the script reads it: keys
    that may be absent are options. *)
Record location : Type := mkLocation {
  lat : option coord;
  lng : option coord
}.

Record geometry : Type := mkGeometry {
  geometry_location : option location
}.

Record place : Type := mkPlace {
  place_geometry : option geometry;
  place_place_id : option string;
  place_formatted_address : option string
}.

(** What [gmaps_client.geocode(address, language="de")] does: it returns
    a list of results or raises an exception whose [str] is [msg]. *)
Inductive reply : Type :=
| Results (results : list place)
| Fails (msg : string).

Inductive event : Type :=
| Geocode (address : string)   (* a call of gmaps_client.geocode *)
| Backoff (seconds : Z)        (* a pause of the retry decorator *)
| Sleep.                       (* time.sleep(args.sleep) *)

Definition trace := list event.

(** The addresses sent to the provider, in order. *)
Fixpoint calls (tr : trace) : list string :=
  match tr with
  | [] => []
  | Geocode a :: tr' => a :: calls tr'
  | _ :: tr' => calls tr'
  end.

(** The pauses of the retry decorator, in order. *)
Fixpoint backoffs (tr : trace) : list Z :=
  match tr with
  | [] => []
  | Backoff s :: tr' => s :: backoffs tr'
  | _ :: tr' => backoffs tr'
  end.

(** The provider answers an address knowing the calls made before. *)
Definition provider := list string -> string -> reply.

(** A computation that may raise and that extends the trace. *)
Definition action (A : Type) := trace -> outcome A * trace.

(** The dict returned by [geocode_one]. *)
Module Geo.
Record t : Type := mk {
  latitude : option coord;
  longitude : option coord;
  place_id : option string;
  formatted_address : option string
}.
End Geo.

Definition quota_markers : list string := ["OVER_QUERY_LIMIT"; "OVER_DAILY_LIMIT"].

(** [m in str(e) or m' in str(e)] for the two markers of line 75. *)
Definition quota_exceeded (msg : string) : bool :=
  PyStr.contains "OVER_QUERY_LIMIT" msg || PyStr.contains "OVER_DAILY_LIMIT" msg.

(** The body of [geocode_one], lines 72 to 87: one call of the provider. *)
Definition geocode_one_body (gmaps_client : provider) (address : string)
  : action (option Geo.t) :=
  fun tr =>
    let tr' := tr ++ [Geocode address] in
    match gmaps_client (calls tr) address with
    | Fails msg =>
        if quota_exceeded msg
        then (Raise (RateLimitError msg), tr')
        else (Raise (Failure msg), tr')
    | Results [] => (Return None, tr')
    | Results (best :: _) =>
        match place_geometry best with
        | None => (Raise (KeyError "'geometry'"), tr')
        | Some g =>
            match geometry_location g with
            | None => (Raise (KeyError "'location'"), tr')
            | Some loc =>
                (Return (Some (Geo.mk (lat loc) (lng loc)
                                      (place_place_id best)
                                      (place_formatted_address best))), tr')
            end
        end
    end.

(** ** The retry decorator *)

(** tenacity's [wait_exponential(multiplier, min, max)]: the pause after
    the attempt of the given number (counted from 1). *)
Definition wait_exponential (multiplier min max : Z) (attempt_number : nat) : Z :=
  Z.max (Z.max 0 min) (Z.min (multiplier * 2 ^ Z.of_nat (attempt_number - 1)) max).

Section Retry.

Context {A : Type}.
Variable retry_if : exn -> bool.       (* retry=  *)
Variable wait : nat -> Z.              (* wait=   *)
Variable reraise : bool.               (* reraise= *)
Variable f : action A.                 (* the decorated call *)

(** The attempt numbered [attempt_number], with [more] attempts allowed
    after it.  A returned value ends the loop; so does an exception
    that [retry_if] rejects, which is raised as it is; when no attempt
    is left the last exception is raised again ([reraise]) or a
    [RetryError] is; otherwise the loop pauses and tries again. *)
Fixpoint attempts (more attempt_number : nat) : action A :=
  fun tr =>
    match f tr with
    | (Return a, tr') => (Return a, tr')
    | (Raise e, tr') =>
        if retry_if e then
          match more with
          | O => (Raise (if reraise then e else RetryError), tr')
          | S more' =>
              attempts more' (S attempt_number)
                       (tr' ++ [Backoff (wait attempt_number)])
          end
        else (Raise e, tr')
    end.

(** [@retry(retry=..., wait=..., stop=stop_after_attempt(n), reraise=...)] *)
Definition retry (stop_after_attempt : nat) : action A :=
  attempts (stop_after_attempt - 1) 1.

End Retry.

(** [geocode_one] as decorated on lines 65 to 70. *)
Definition geocode_one (gmaps_client : provider) (address : string)
  : action (option Geo.t) :=
  retry is_rate_limit (wait_exponential 1 2 60) true
        (geocode_one_body gmaps_client address) 6.

(** ** The driver *)

Definition not_found_entry (addr : string) : CacheEntry :=
  Entry.mk addr None None None "NOT_FOUND".

Definition ok_entry (addr : string) (data : Geo.t) : CacheEntry :=
  Entry.mk addr (Geo.latitude data) (Geo.longitude data) (Geo.place_id data) "OK".

Definition error_entry (addr : string) (e : exn) : CacheEntry :=
  Entry.mk addr None None None ("ERROR: " ++ str_exn e).

(** How the [for] loop of lines 117 to 152 ends: it runs out of rows, or
    the handler of [RateLimitError] is entered. *)
Inductive loop_end : Type :=
| Exhausted
| RateLimited.

(** The loop over [to_fetch], with the list [results] built so far. *)
Fixpoint fetch_loop (gmaps_client : provider) (to_fetch : list merged_row)
  (results : list CacheEntry) (tr : trace)
  : loop_end * list CacheEntry * trace :=
  match to_fetch with
  | [] => (Exhausted, results, tr)
  | row :: rest =>
      let addr := Addr.address_for_geocoding (fst row) in
      match geocode_one gmaps_client addr tr with
      | (Return None, tr') =>
          fetch_loop gmaps_client rest (results ++ [not_found_entry addr])
                     (tr' ++ [Sleep])
      | (Return (Some data), tr') =>
          fetch_loop gmaps_client rest (results ++ [ok_entry addr data])
                     (tr' ++ [Sleep])
      | (Raise (RateLimitError _), tr') => (RateLimited, results, tr')
      | (Raise e, tr') =>
          fetch_loop gmaps_client rest (results ++ [error_entry addr e])
                     (tr' ++ [Sleep])
      end
  end.

(** How the process ends. *)
Inductive termination : Type :=
| Exit (code : Z)
| Uncaught (e : exn).

(** What a run leaves behind. *)
Record run : Type := mkRun {
  status : termination;
  cache_after : cache_file;                                (* the file at --cache *)
  written : option (list merged_row * list merged_row);    (* the two output sheets *)
  log : trace
}.

(** [if results: ... save_cache(cache_df, cache_path)] of lines 138 to 141
    and 154 to 157: the frame [cache_df] and the file afterwards. *)
Definition flush (cache_df results : list CacheEntry) (cache_path : cache_file)
  : list CacheEntry * cache_file :=
  match results with
  | [] => (cache_df, cache_path)
  | _ => (cache_df ++ results, save_cache (cache_df ++ results))
  end.

Definition has_country (label : string) (m : merged_row) : bool :=
  String.eqb (Addr.Country (fst m)) label.

(** Lines 108 to 110. *)
Definition extract (xlsx : workbook) : outcome (list AddressRecord) :=
  de <- parse_sheet xlsx "dm DE" "Germany" ;;
  at_ <- parse_sheet xlsx "dm AT" "Austria" ;;
  Return (de ++ at_).

(** [googlemaps.Client(key=api_key)] of line 106, as far as the script
    can see it: the constructor raises [ValueError] for a key that does
    not begin with "AIza"; otherwise it gives the client, whose [geocode]
    is the geocoding service. *)
Definition Client (key : string) (service : provider) : outcome provider :=
  if prefix "AIza" key then Return service
  else Raise (Failure "Invalid API key provided.").

(** [main] from line 97 on, that is for a command line that [parse_args]
    accepted and a delay [--sleep] that [time.sleep] accepts: from the
    environment variable, the workbook at [--input], the file at
    [--cache] and the geocoding service.  A frame made of no dict has no
    column, so joining an empty [combined] is a [KeyError]. *)
Definition main (api_key : option string) (xlsx : workbook)
  (cache_path : cache_file) (service : provider) : run :=
  match api_key with
  | None | Some EmptyString => mkRun (Exit 2) cache_path None []
  | Some key =>
      match Client key service with
      | Raise e => mkRun (Uncaught e) cache_path None []
      | Return gmaps_client =>
          match extract xlsx with
          | Raise e => mkRun (Uncaught e) cache_path None []
          | Return [] =>
              mkRun (Uncaught (KeyError "'address_for_geocoding'"))
                    cache_path None []
          | Return combined =>
              match load_or_create_cache cache_path with
              | Raise e => mkRun (Uncaught e) cache_path None []
              | Return cache_df =>
                  let merged := merge combined cache_df in
                  let to_fetch := select_to_fetch merged in
                  match fetch_loop gmaps_client to_fetch [] [] with
                  | (RateLimited, results, tr) =>
                      mkRun (Exit 3) (snd (flush cache_df results cache_path))
                            None tr
                  | (Exhausted, results, tr) =>
                      let (cache_df', file') :=
                        flush cache_df results cache_path in
                      let final := merge combined cache_df' in
                      mkRun (Exit 0) file'
                            (Some (filter (has_country "Germany") final,
                                   filter (has_country "Austria") final))
                            tr
                  end
              end
          end
      end
  end.

(** ** Notions used in the statements *)

(** The records one row contributes to [rows]: one or none. *)
Definition row_records (country_label : string) (r : row) : list AddressRecord :=
  match parse_row country_label r with
  | Return (Some rec) => [rec]
  | _ => []
  end.

(** The plain-text value of the postal-code column, line 38. *)
Definition plz_of (c4 : cell) : string :=
  if negb (isna c4) then hd EmptyString (PyStr.split "." (py_str c4))
  else EmptyString.

(** The plain-text value of the city column, line 39. *)
Definition city_of (c5 : cell) : string :=
  if negb (isna c5) then py_str c5 else EmptyString.

(** [sub] occurs somewhere in [s]. *)
Definition occurs_in (sub s : string) : Prop :=
  exists pre post : string, s = (pre ++ sub ++ post)%string.

(** The trace of [n] attempts on [address] that are each followed by the
    pause of the decorator, the first of them being attempt number [k]. *)
Fixpoint failed_attempts (address : string) (k n : nat) : trace :=
  match n with
  | O => []
  | S n' =>
      Geocode address :: Backoff (wait_exponential 1 2 60 k)
        :: failed_attempts address (S k) n'
  end.

(** The addresses of the rows of a cache frame. *)
Definition keys (cache_df : list CacheEntry) : list string :=
  map Entry.address_for_geocoding cache_df.

(** An address is a miss for a cache frame: the frame has no row for it,
    or it has a row for it whose latitude is null. *)
Definition is_miss (cache_df : list CacheEntry) (addr : string) : Prop :=
  (forall e, In e cache_df -> Entry.address_for_geocoding e <> addr)
  \/ (exists e, In e cache_df /\ Entry.address_for_geocoding e = addr
                 /\ Entry.latitude e = None).

(** The frame has no row for the address with a latitude. *)
Definition no_resolved_entry (cache_df : list CacheEntry) (addr : string) : Prop :=
  forall e, In e cache_df -> Entry.address_for_geocoding e = addr ->
            Entry.latitude e = None.

(** The number of [time.sleep(args.sleep)] pauses in a trace. *)
Fixpoint sleeps (tr : trace) : nat :=
  match tr with
  | [] => 0
  | Sleep :: tr' => S (sleeps tr')
  | _ :: tr' => sleeps tr'
  end.

(** The seconds the retry decorator paused in a trace. *)
Definition total_backoff (tr : trace) : Z :=
  fold_right Z.add 0%Z (backoffs tr).

(** A string that does not begin with white space. *)
Definition starts_clean (s : string) : Prop :=
  match s with
  | EmptyString => True
  | String c _ => PyStr.is_space c = false
  end.

(** The rows the left join gives for one record. *)
Definition joined_rows (cache_df : list CacheEntry) (r : AddressRecord)
  : list merged_row :=
  match filter (matches r) cache_df with
  | [] => [(r, None)]
  | ms => map (fun e => (r, Some e)) ms
  end.

(** The provider finds, for every address and whatever was asked before,
    a first result that has a location with a latitude. *)
Definition resolves_everything (gmaps_client : provider) : Prop :=
  forall history address,
  exists best others g loc c,
    gmaps_client history address = Results (best :: others)
    /\ place_geometry best = Some g
    /\ geometry_location g = Some loc
    /\ lat loc = Some c.

(** ** Sample inputs *)

Module Sample.

Definition row_dresden : row :=
  [Text "D123"; NaN; NaN; Text " Hauptstr. 1 "; Float 1067 "0"; Text "Dresden"].

Definition row_gesamt : row :=
  [Text "Gesamt"; NaN; NaN; NaN; NaN; NaN].

Definition row_wien : row :=
  [Text "A7"; NaN; NaN; Text "Ring 2"; NaN; NaN].

(** A row of a frame that has no postal-code and no city column. *)
Definition row_narrow : row :=
  [Text "D1"; NaN; NaN; Text "Weg 1"].

Definition rec_dresden : AddressRecord :=
  Addr.mk "D123" "Hauptstr. 1" "1067" "Dresden" "Germany"
          "Hauptstr. 1, 1067 Dresden, Germany".

Definition rec_wien : AddressRecord :=
  Addr.mk "A7" "Ring 2" "" "" "Austria" "Ring 2,  , Austria".

(** A workbook with one address row and one subtotal row in its German
    sheet and one address row in its Austrian sheet. *)
Definition book : workbook :=
  fun sheet_name =>
    if String.eqb sheet_name "dm DE" then Some [row_dresden; row_gesamt]
    else if String.eqb sheet_name "dm AT" then Some [row_wien]
    else None.

Definition place_dresden : place :=
  mkPlace (Some (mkGeometry (Some (mkLocation (Some 51.05%Q) (Some 13.74%Q)))))
          (Some "ChIJ-dresden") (Some "Hauptstr. 1, 01067 Dresden").

(** A provider that finds every address. *)
Definition gm_found : provider := fun _ _ => Results [place_dresden].

(** A provider whose quota is used up. *)
Definition gm_quota : provider := fun _ _ => Fails "OVER_QUERY_LIMIT".

(** A provider that cannot be reached. *)
Definition gm_timeout : provider := fun _ _ => Fails "timed out".

Definition entry_dresden_not_found : CacheEntry :=
  Entry.mk "Hauptstr. 1, 1067 Dresden, Germany" None None None "NOT_FOUND".

Definition entry_dresden_ok : CacheEntry :=
  Entry.mk "Hauptstr. 1, 1067 Dresden, Germany" (Some 51.05%Q) (Some 13.74%Q)
           (Some "ChIJ-dresden") "OK".

Definition entry_dresden_error : CacheEntry :=
  Entry.mk "Hauptstr. 1, 1067 Dresden, Germany" None None None
           "ERROR: timed out".

Definition entry_wien_ok : CacheEntry :=
  Entry.mk "Ring 2,  , Austria" (Some 51.05%Q) (Some 13.74%Q)
           (Some "ChIJ-dresden") "OK".

(** A workbook that lists the Dresden address in two rows. *)
Definition book_twice : workbook :=
  fun sheet_name =>
    if String.eqb sheet_name "dm DE" then Some [row_dresden; row_dresden]
    else if String.eqb sheet_name "dm AT" then Some [row_wien]
    else None.

(** A provider that answers its first call, cannot be reached at its
    second, and has no quota left from the third on. *)
Definition gm_flaky : provider :=
  fun history _ =>
    match history with
    | [] => Results [place_dresden]
    | [_] => Fails "timed out"
    | _ => Fails "OVER_QUERY_LIMIT"
    end.

(** A cache file with two rows for the Dresden address. *)
Definition cache_conflicting : cache_file :=
  Some (Return [entry_dresden_ok; entry_dresden_not_found]).

(** A cache file left by a run that did not find the Dresden address. *)
Definition cache_not_found : cache_file :=
  Some (Return [entry_dresden_not_found]).

End Sample.

(** * Properties of the extractor *)

Section StringFacts.

Lemma isna_true (c : cell) : isna c = true <-> c = NaN.
Proof. destruct c; simpl; split; intros H; congruence. Qed.

Lemma isna_false (c : cell) : isna c = false <-> c <> NaN.
Proof. destruct c; simpl; split; intros H; congruence. Qed.

Lemma str_in_true (x : string) (xs : list string) :
  PyStr.str_in x xs = true <-> In x xs.
Proof.
  unfold PyStr.str_in. rewrite existsb_exists. split.
  - intros [y [Hy Heq]]. apply String.eqb_eq in Heq. now subst.
  - intros H. exists x. split; [assumption | apply String.eqb_refl].
Qed.

Lemma str_in_false (x : string) (xs : list string) :
  PyStr.str_in x xs = false <-> ~ In x xs.
Proof.
  rewrite <- str_in_true. destruct (PyStr.str_in x xs); split; intros H;
    congruence.
Qed.

Lemma split_nonempty (sep : ascii) (s : string) : PyStr.split sep s <> [].
Proof.
  induction s as [|c t IH]; simpl; [discriminate|].
  destruct (Ascii.eqb c sep); [discriminate|].
  destruct (PyStr.split sep t); discriminate.
Qed.

(** Without a separator, [split] returns the string alone. *)
Lemma split_no_sep (sep : ascii) (s : string) :
  ~ PyStr.has_char sep s -> PyStr.split sep s = [s].
Proof.
  induction s as [|c t IH]; simpl; intros H; [reflexivity|].
  destruct (Ascii.eqb c sep) eqn:E.
  - apply Ascii.eqb_eq in E. exfalso. apply H. now left.
  - rewrite IH; [reflexivity|]. intros Ht. apply H. now right.
Qed.

(** The first piece is what precedes the first separator. *)
Lemma split_head (sep : ascii) (a b : string) :
  ~ PyStr.has_char sep a ->
  hd EmptyString (PyStr.split sep (a ++ String sep b)) = a.
Proof.
  induction a as [|c t IH]; simpl; intros H.
  - now rewrite Ascii.eqb_refl.
  - destruct (Ascii.eqb c sep) eqn:E.
    + apply Ascii.eqb_eq in E. exfalso. apply H. now left.
    + assert (Ht : ~ PyStr.has_char sep t) by (intros Ht; apply H; now right).
      specialize (IH Ht).
      destruct (PyStr.split sep (t ++ String sep b)) as [|h r] eqn:Es.
      * exfalso. now apply (split_nonempty sep (t ++ String sep b)).
      * simpl in IH. simpl. now subst.
Qed.

Lemma uint_no_dot (d : Decimal.uint) :
  ~ PyStr.has_char "." (NilEmpty.string_of_uint d).
Proof.
  induction d; simpl; intros H; try assumption;
    destruct H as [H|H]; try discriminate H; now apply IHd.
Qed.

(** The decimal text of an integer has no point in it. *)
Lemma str_int_no_dot (n : Z) : ~ PyStr.has_char "." (PyStr.str_int n).
Proof.
  unfold PyStr.str_int, NilZero.string_of_int, NilZero.string_of_uint.
  destruct (Z.to_int n) as [d|d].
  - destruct d; simpl; intros H;
      repeat (destruct H as [H|H]; [discriminate H|]);
      try assumption; now apply (uint_no_dot d).
  - simpl. intros [H|H]; [discriminate H|].
    destruct d; simpl in H;
      repeat (destruct H as [H|H]; [discriminate H|]);
      try assumption; now apply (uint_no_dot d).
Qed.

End StringFacts.

Section Extractor.

Variable country_label : string.

(** What a row that gives a record looks like, and the record. *)
Lemma parse_row_some (r : row) (rec : AddressRecord) :
  parse_row country_label r = Return (Some rec) ->
  exists first street c4 c5,
    nth_error r 0 = Some first /\ nth_error r 3 = Some street /\
    nth_error r 4 = Some c4 /\ nth_error r 5 = Some c5 /\
    first <> NaN /\
    ~ In (PyStr.strip (py_str first)) skip_markers /\
    street <> NaN /\
    PyStr.strip (py_str street) <> "Strasse" /\
    rec = Addr.mk (PyStr.strip (py_str first)) (PyStr.strip (py_str street))
                  (plz_of c4) (city_of c5) country_label
                  (format_address (PyStr.strip (py_str street)) (plz_of c4)
                                  (city_of c5) country_label).
Proof.
  unfold parse_row, getitem.
  destruct (nth_error r 0) as [first|]; cbn [bind]; [|discriminate].
  destruct (isna first || _) eqn:E1; [discriminate|].
  apply orb_false_elim in E1. destruct E1 as [E1 E1'].
  destruct (nth_error r 3) as [street|]; cbn [bind]; [|discriminate].
  destruct (isna street || _) eqn:E2; [discriminate|].
  apply orb_false_elim in E2. destruct E2 as [E2 E2'].
  destruct (nth_error r 4) as [c4|]; cbn [bind]; [|discriminate].
  destruct (nth_error r 5) as [c5|]; cbn [bind]; [|discriminate].
  intros H. injection H as <-.
  exists first, street, c4, c5.
  repeat split; try reflexivity.
  - now apply isna_false.
  - now apply str_in_false.
  - now apply isna_false.
  - now apply String.eqb_neq.
Qed.

(** A row skipped on its identifier. *)
Lemma parse_row_skip_first (r : row) (first : cell) :
  nth_error r 0 = Some first ->
  first = NaN \/ In (PyStr.strip (py_str first)) skip_markers ->
  parse_row country_label r = Return None.
Proof.
  intros H0 Hskip. unfold parse_row, getitem. rewrite H0. cbn [bind].
  assert (E : isna first
              || PyStr.str_in (PyStr.strip (py_str first)) skip_markers = true).
  { destruct Hskip as [->|Hin]; [reflexivity|].
    apply str_in_true in Hin. rewrite Hin. apply orb_true_r. }
  now rewrite E.
Qed.

(** The loop returns the records built so far and then those of the
    rows, in order. *)
Lemma parse_loop_returns (df : list row) :
  forall rows recs,
    parse_loop country_label df rows = Return recs ->
    recs = rows ++ flat_map (row_records country_label) df.
Proof.
  induction df as [|r df IH]; simpl; intros rows recs H.
  - injection H as <-. now rewrite app_nil_r.
  - unfold row_records at 1.
    destruct (parse_row country_label r) as [[rec|]|e]; simpl in H.
    + apply IH in H. now rewrite <- app_assoc in H.
    + now apply IH in H.
    + discriminate.
Qed.

(** A row that gives no record can be taken out of the frame. *)
Lemma parse_loop_skip (pre post : list row) (r : row) :
  parse_row country_label r = Return None ->
  forall rows,
    parse_loop country_label (pre ++ r :: post) rows
    = parse_loop country_label (pre ++ post) rows.
Proof.
  intros Hr. induction pre as [|p pre IH]; simpl; intros rows.
  - now rewrite Hr.
  - destruct (parse_row country_label p) as [[rec|]|e]; simpl;
      [apply IH | apply IH | reflexivity].
Qed.

Lemma in_row_records (df : list row) (rec : AddressRecord) :
  In rec (flat_map (row_records country_label) df) <->
  exists r, In r df /\ parse_row country_label r = Return (Some rec).
Proof.
  rewrite in_flat_map. split; intros [r [Hr H]]; exists r; split; trivial.
  - unfold row_records in H.
    destruct (parse_row country_label r) as [[rec'|]|e]; simpl in H;
      try contradiction.
    destruct H as [->|[]]. reflexivity.
  - unfold row_records. rewrite H. now left.
Qed.

End Extractor.

Lemma parse_sheet_returns (xlsx : workbook) (sheet_name country_label : string)
  (recs : list AddressRecord) :
  parse_sheet xlsx sheet_name country_label = Return recs ->
  exists df, xlsx sheet_name = Some df
             /\ parse_loop country_label df [] = Return recs
             /\ recs = flat_map (row_records country_label) df.
Proof.
  unfold parse_sheet, read_excel.
  destruct (xlsx sheet_name) as [df|]; simpl; [|discriminate].
  intros H. exists df. repeat split; trivial.
  now apply parse_loop_returns in H.
Qed.

(** Every extracted record carries the address text built from its own
    fields. *)
Lemma extracted_address (xlsx : workbook) (sheet_name country_label : string)
  (recs : list AddressRecord) (rec : AddressRecord) :
  parse_sheet xlsx sheet_name country_label = Return recs ->
  In rec recs ->
  Addr.address_for_geocoding rec
  = format_address (Addr.Strasse rec) (Addr.PLZ rec) (Addr.Ort rec)
                   (Addr.Country rec).
Proof.
  intros Hp Hin.
  destruct (parse_sheet_returns _ _ _ _ Hp) as [df [_ [_ ->]]].
  apply in_row_records in Hin. destruct Hin as [r [_ Hr]].
  destruct (parse_row_some _ _ _ Hr)
    as (first & street & c4 & c5 & _ & _ & _ & _ & _ & _ & _ & _ & ->).
  reflexivity.
Qed.

Lemma plz_of_prefix (c4 : cell) (a b : string) :
  c4 <> NaN ->
  py_str c4 = (a ++ "." ++ b)%string ->
  ~ PyStr.has_char "." a ->
  plz_of c4 = a.
Proof.
  intros Hna Hs Ha. unfold plz_of.
  apply isna_false in Hna. rewrite Hna. simpl negb. cbv iota.
  rewrite Hs. now apply split_head.
Qed.

Lemma plz_of_whole (c4 : cell) :
  c4 <> NaN ->
  ~ PyStr.has_char "." (py_str c4) ->
  plz_of c4 = py_str c4.
Proof.
  intros Hna Hs. unfold plz_of.
  apply isna_false in Hna. rewrite Hna. simpl negb. cbv iota.
  now rewrite split_no_sep.
Qed.

(** C8. For every record that [parse_sheet] extracts, the address sent to
    the geocoder is exactly "street, postal_code city, country_label"
    built from the record's own fields; two extracted records (of any
    sheets and workbooks) with the same four fields have the same address
    text; and the postal code is the text of the cell cut at its first
    point: a float printed as "w.f" gives the decimal text of [w], an
    integer its decimal text, a text without a point itself, an empty
    cell the empty string. *)
Theorem query_string_format :
  forall (xlsx : workbook) (sheet_name country_label : string)
         (recs : list AddressRecord) (rec : AddressRecord),
    parse_sheet xlsx sheet_name country_label = Return recs ->
    In rec recs ->
    Addr.address_for_geocoding rec
    = (Addr.Strasse rec ++ ", " ++ Addr.PLZ rec ++ " " ++ Addr.Ort rec
       ++ ", " ++ Addr.Country rec)%string
    /\ Addr.Country rec = country_label
    /\ (forall xlsx' sheet_name' country_label' recs' rec',
          parse_sheet xlsx' sheet_name' country_label' = Return recs' ->
          In rec' recs' ->
          Addr.Strasse rec' = Addr.Strasse rec ->
          Addr.PLZ rec' = Addr.PLZ rec ->
          Addr.Ort rec' = Addr.Ort rec ->
          Addr.Country rec' = Addr.Country rec ->
          Addr.address_for_geocoding rec' = Addr.address_for_geocoding rec)
    /\ exists (df : list row) (r : row) (c4 : cell),
         xlsx sheet_name = Some df /\ In r df /\
         parse_row country_label r = Return (Some rec) /\
         nth_error r 4 = Some c4 /\
         (forall w f, c4 = Float w f -> Addr.PLZ rec = PyStr.str_int w) /\
         (forall n, c4 = Int n -> Addr.PLZ rec = PyStr.str_int n) /\
         (forall a b, c4 = Text (a ++ "." ++ b) -> ~ PyStr.has_char "." a ->
                      Addr.PLZ rec = a) /\
         (forall s, c4 = Text s -> ~ PyStr.has_char "." s -> Addr.PLZ rec = s) /\
         (c4 = NaN -> Addr.PLZ rec = "").
Proof.
  intros xlsx sheet_name country_label recs rec Hp Hin.
  split; [exact (extracted_address _ _ _ _ _ Hp Hin)|].
  destruct (parse_sheet_returns _ _ _ _ Hp) as [df [Hdf [_ Hrecs]]].
  pose proof Hin as Hin'. rewrite Hrecs in Hin'.
  apply in_row_records in Hin'. destruct Hin' as [r [Hr Hrow]].
  destruct (parse_row_some _ _ _ Hrow)
    as (first & street & c4 & c5 & _ & _ & H4 & _ & _ & _ & _ & _ & Hrec).
  split; [now rewrite Hrec|].
  split.
  - intros xlsx' sheet' label' recs' rec' Hp' Hin' Hs Hz Ho Hc.
    rewrite (extracted_address _ _ _ _ _ Hp' Hin').
    rewrite (extracted_address _ _ _ _ _ Hp Hin).
    now rewrite Hs, Hz, Ho, Hc.
  - exists df, r, c4. repeat split; trivial; rewrite Hrec; simpl Addr.PLZ.
    + intros w f ->.
      apply (plz_of_prefix (Float w f) (PyStr.str_int w) f);
        [discriminate | reflexivity | apply str_int_no_dot].
    + intros n ->.
      apply (plz_of_whole (Int n)); [discriminate | apply str_int_no_dot].
    + intros a b -> Ha.
      apply (plz_of_prefix (Text (a ++ "." ++ b)) a b);
        [discriminate | reflexivity | exact Ha].
    + intros s -> Hs.
      apply (plz_of_whole (Text s)); [discriminate | exact Hs].
    + intros ->. reflexivity.
Qed.

Lemma query_string_format_witness :
  parse_sheet Sample.book "dm DE" "Germany" = Return [Sample.rec_dresden]
  /\ In Sample.rec_dresden [Sample.rec_dresden]
  /\ Addr.address_for_geocoding Sample.rec_dresden
     = (Addr.Strasse Sample.rec_dresden ++ ", " ++ Addr.PLZ Sample.rec_dresden
        ++ " " ++ Addr.Ort Sample.rec_dresden ++ ", "
        ++ Addr.Country Sample.rec_dresden)%string.
Proof.
  split; [reflexivity|]. split; [now left|].
  apply (query_string_format Sample.book "dm DE" "Germany"
           [Sample.rec_dresden] Sample.rec_dresden);
    [reflexivity | now left].
Defined.

(** C9. In what [parse_sheet] extracts from a sheet, every record comes
    from a row whose first cell is neither empty nor, once stripped, one
    of the markers "dm-Markt" and "Gesamt"; a row whose first cell is
    empty or such a marker gives no record, and the sheet without that
    row gives the same records; and a sheet made of one row that gives a
    record and one "Gesamt" row, in either order, gives exactly that one
    record. *)
Theorem marker_rows_never_extracted :
  forall (xlsx : workbook) (sheet_name country_label : string)
         (df : list row) (recs : list AddressRecord),
    xlsx sheet_name = Some df ->
    parse_sheet xlsx sheet_name country_label = Return recs ->
    (forall rec, In rec recs ->
       exists r first,
         In r df /\ nth_error r 0 = Some first /\
         first <> NaN /\
         ~ In (PyStr.strip (py_str first)) ["dm-Markt"; "Gesamt"] /\
         parse_row country_label r = Return (Some rec) /\
         Addr.dm_code rec = PyStr.strip (py_str first))
    /\ (forall pre r post first,
          df = pre ++ r :: post ->
          nth_error r 0 = Some first ->
          first = NaN \/ In (PyStr.strip (py_str first)) ["dm-Markt"; "Gesamt"] ->
          row_records country_label r = []
          /\ parse_loop country_label (pre ++ post) [] = Return recs)
    /\ (forall r rec others,
          parse_row country_label r = Return (Some rec) ->
          df = [r; Text "Gesamt" :: others] \/ df = [Text "Gesamt" :: others; r] ->
          recs = [rec]).
Proof.
  intros xlsx sheet_name country_label df recs Hdf Hp.
  destruct (parse_sheet_returns _ _ _ _ Hp) as [df' [Hdf' [Hloop Hrecs]]].
  assert (df' = df) by congruence. subst df'.
  split; [|split].
  - intros rec Hin. rewrite Hrecs in Hin.
    apply in_row_records in Hin. destruct Hin as [r [Hr Hrow]].
    destruct (parse_row_some _ _ _ Hrow)
      as (first & street & c4 & c5 & H0 & _ & _ & _ & Hf & Hm & _ & _ & Hrec).
    exists r, first. repeat split; trivial. now rewrite Hrec.
  - intros pre r post first -> H0 Hskip.
    pose proof (parse_row_skip_first country_label r first H0 Hskip) as Hnone.
    split.
    + unfold row_records. now rewrite Hnone.
    + now rewrite <- (parse_loop_skip country_label pre post r Hnone).
  - intros r rec others Hrow Hshape.
    assert (Hg : parse_row country_label (Text "Gesamt" :: others) = Return None).
    { apply (parse_row_skip_first country_label _ (Text "Gesamt"));
        [reflexivity | right; simpl; tauto]. }
    rewrite Hrecs.
    destruct Hshape as [-> | ->]; cbn [flat_map]; unfold row_records;
      rewrite Hrow, Hg; reflexivity.
Qed.

Lemma marker_rows_never_extracted_witness :
  Sample.book "dm DE" = Some [Sample.row_dresden; Sample.row_gesamt]
  /\ parse_sheet Sample.book "dm DE" "Germany" = Return [Sample.rec_dresden]
  /\ (forall r rec others,
        parse_row "Germany" r = Return (Some rec) ->
        [Sample.row_dresden; Sample.row_gesamt] = [r; Text "Gesamt" :: others]
        \/ [Sample.row_dresden; Sample.row_gesamt] = [Text "Gesamt" :: others; r] ->
        [Sample.rec_dresden] = [rec]).
Proof.
  split; [reflexivity|]. split; [reflexivity|].
  apply (marker_rows_never_extracted Sample.book "dm DE" "Germany"
           [Sample.row_dresden; Sample.row_gesamt] [Sample.rec_dresden]);
    reflexivity.
Defined.

(** C10. For a row of a frame with the six columns, the row is skipped
    exactly when its first cell is empty or a marker, or its street cell
    is empty or the header "Strasse"; an empty postal-code or city cell
    does not skip it: the row then gives a record with the empty string
    in that field, whose address text is built with that empty string,
    and the record is among those [parse_sheet] returns. *)
Theorem missing_plz_or_city_keeps_row :
  forall (country_label : string) (r : row) (first street c4 c5 : cell),
    nth_error r 0 = Some first ->
    nth_error r 3 = Some street ->
    nth_error r 4 = Some c4 ->
    nth_error r 5 = Some c5 ->
    (parse_row country_label r = Return None <->
       (first = NaN \/ In (PyStr.strip (py_str first)) ["dm-Markt"; "Gesamt"])
       \/ (street = NaN \/ PyStr.strip (py_str street) = "Strasse"))
    /\ (first <> NaN ->
        ~ In (PyStr.strip (py_str first)) ["dm-Markt"; "Gesamt"] ->
        street <> NaN ->
        PyStr.strip (py_str street) <> "Strasse" ->
        exists rec,
          parse_row country_label r = Return (Some rec) /\
          Addr.dm_code rec = PyStr.strip (py_str first) /\
          Addr.Strasse rec = PyStr.strip (py_str street) /\
          (c4 = NaN -> Addr.PLZ rec = "") /\
          (c5 = NaN -> Addr.Ort rec = "") /\
          Addr.address_for_geocoding rec
          = (Addr.Strasse rec ++ ", " ++ Addr.PLZ rec ++ " " ++ Addr.Ort rec
             ++ ", " ++ country_label)%string /\
          (c4 = NaN -> c5 = NaN ->
           Addr.address_for_geocoding rec
           = (Addr.Strasse rec ++ ",  , " ++ country_label)%string) /\
          (forall xlsx sheet_name df recs,
             xlsx sheet_name = Some df -> In r df ->
             parse_sheet xlsx sheet_name country_label = Return recs ->
             In rec recs)).
Proof.
  intros country_label r first street c4 c5 H0 H3 H4 H5.
  assert (Hrow : parse_row country_label r =
    if isna first || PyStr.str_in (PyStr.strip (py_str first)) skip_markers
    then Return None
    else if isna street || String.eqb (PyStr.strip (py_str street)) "Strasse"
    then Return None
    else Return (Some (Addr.mk (PyStr.strip (py_str first))
                               (PyStr.strip (py_str street))
                               (plz_of c4) (city_of c5) country_label
                               (format_address (PyStr.strip (py_str street))
                                  (plz_of c4) (city_of c5) country_label)))).
  { unfold parse_row, getitem. rewrite H0, H3, H4, H5. reflexivity. }
  split.
  - rewrite Hrow. split.
    + destruct (isna first || _) eqn:E1.
      * intros _. left. apply orb_true_iff in E1.
        destruct E1 as [E|E]; [left; now apply isna_true
                              | right; now apply str_in_true].
      * destruct (isna street || _) eqn:E2; [|discriminate].
        intros _. right. apply orb_true_iff in E2.
        destruct E2 as [E|E]; [left; now apply isna_true
                              | right; now apply String.eqb_eq].
    + intros [[Hf|Hf]|[Hs|Hs]].
      * apply isna_true in Hf. now rewrite Hf.
      * apply str_in_true in Hf. unfold skip_markers. rewrite Hf.
        now rewrite orb_true_r.
      * apply isna_true in Hs. rewrite Hs.
        now destruct (isna first || _).
      * apply String.eqb_eq in Hs. rewrite Hs, orb_true_r.
        now destruct (isna first || _).
  - intros Hf Hm Hs Hh.
    apply isna_false in Hf. apply str_in_false in Hm.
    apply isna_false in Hs. apply String.eqb_neq in Hh.
    unfold skip_markers in Hrow. rewrite Hf, Hm, Hs, Hh in Hrow.
    simpl orb in Hrow. cbv iota in Hrow.
    eexists. split; [exact Hrow|].
    simpl. repeat split; trivial.
    + now intros ->.
    + now intros ->.
    + now intros -> ->.
    + intros xlsx sheet_name df recs Hdf Hin Hp.
      destruct (parse_sheet_returns _ _ _ _ Hp) as [df' [Hdf' [_ ->]]].
      assert (df' = df) by congruence. subst df'.
      apply in_row_records. exists r. split; [exact Hin | exact Hrow].
Qed.

Lemma missing_plz_or_city_keeps_row_witness :
  nth_error Sample.row_wien 0 = Some (Text "A7")
  /\ nth_error Sample.row_wien 3 = Some (Text "Ring 2")
  /\ nth_error Sample.row_wien 4 = Some NaN
  /\ nth_error Sample.row_wien 5 = Some NaN
  /\ (parse_row "Austria" Sample.row_wien = Return None <->
       (Text "A7" = NaN
        \/ In (PyStr.strip (py_str (Text "A7"))) ["dm-Markt"; "Gesamt"])
       \/ (Text "Ring 2" = NaN
           \/ PyStr.strip (py_str (Text "Ring 2")) = "Strasse")).
Proof.
  repeat (split; [reflexivity|]).
  apply (missing_plz_or_city_keeps_row "Austria" Sample.row_wien
           (Text "A7") (Text "Ring 2") NaN NaN);
    reflexivity.
Defined.

(** C10 as it is worded fails on a frame that has no postal-code and no
    city column.  The row has an identifier that is no marker and a
    usable street, and its postal-code and city cells are missing; yet it
    gives no record with empty fields: reading column 4 raises
    [KeyError], and so does [parse_sheet] on a sheet with that row. *)
Lemma missing_plz_or_city_keeps_row_counterexample :
  nth_error Sample.row_narrow 0 = Some (Text "D1")
  /\ Text "D1" <> NaN
  /\ ~ In (PyStr.strip (py_str (Text "D1"))) ["dm-Markt"; "Gesamt"]
  /\ nth_error Sample.row_narrow 3 = Some (Text "Weg 1")
  /\ Text "Weg 1" <> NaN
  /\ PyStr.strip (py_str (Text "Weg 1")) <> "Strasse"
  /\ nth_error Sample.row_narrow 4 = None
  /\ nth_error Sample.row_narrow 5 = None
  /\ parse_row "Germany" Sample.row_narrow = Raise (KeyError "4")
  /\ (forall rec, parse_row "Germany" Sample.row_narrow <> Return (Some rec))
  /\ parse_sheet (fun _ => Some [Sample.row_narrow]) "dm DE" "Germany"
     = Raise (KeyError "4").
Proof.
  split; [reflexivity|]. split; [discriminate|]. split.
  { intros H. vm_compute in H.
    repeat (destruct H as [H|H]; [discriminate H|]). exact H. }
  split; [reflexivity|]. split; [discriminate|].
  split; [vm_compute; discriminate|].
  split; [reflexivity|]. split; [reflexivity|]. split; [reflexivity|].
  split; [intros rec H; vm_compute in H; discriminate H | reflexivity].
Qed.

(** * Properties of the provider adapter *)

Section Substring.

Lemma prefix_true (a s : string) :
  prefix a s = true <-> exists post, s = (a ++ post)%string.
Proof.
  revert s. induction a as [|c a IH]; intros s.
  - split; [intros _; now exists s | intros _; now destruct s].
  - destruct s as [|d s]; simpl.
    + split; [discriminate | intros [post H]; discriminate H].
    + destruct (Ascii.ascii_dec c d) as [->|Hne].
      * rewrite IH. split; intros [post H]; exists post.
        -- now rewrite H.
        -- now injection H.
      * split; [discriminate|].
        intros [post H]. injection H as H1 _. congruence.
Qed.

(** Python's [sub in s] is the occurrence of [sub] in [s]. *)
Lemma contains_occurs (sub s : string) :
  PyStr.contains sub s = true <-> occurs_in sub s.
Proof.
  unfold occurs_in. induction s as [|c s IH].
  - change (PyStr.contains sub EmptyString)
      with (prefix sub EmptyString || false).
    rewrite orb_false_r, prefix_true. split.
    + intros [post H]. now exists EmptyString, post.
    + intros [pre [post H]]. destruct pre; simpl in H.
      * now exists post.
      * discriminate H.
  - change (PyStr.contains sub (String c s))
      with (prefix sub (String c s) || PyStr.contains sub s).
    rewrite orb_true_iff, prefix_true, IH. split.
    + intros [[post H]|[pre [post H]]].
      * now exists EmptyString, post.
      * exists (String c pre), post. simpl. now rewrite H.
    + intros [pre [post H]]. destruct pre as [|d pre]; simpl in H.
      * left. now exists post.
      * right. injection H as _ H. now exists pre, post.
Qed.

Lemma quota_exceeded_true (msg : string) :
  quota_exceeded msg = true <->
  exists marker, In marker quota_markers /\ occurs_in marker msg.
Proof.
  unfold quota_exceeded, quota_markers.
  rewrite orb_true_iff, !contains_occurs. split.
  - intros [H|H]; eexists; (split; [|exact H]); simpl; tauto.
  - intros [marker [[<-|[<-|[]]] H]]; tauto.
Qed.

End Substring.

Section Adapter.

Variable gmaps_client : provider.
Variable address : string.

(** One call of the body logs one call of the provider. *)
Lemma geocode_one_body_trace (tr : trace) :
  snd (geocode_one_body gmaps_client address tr) = tr ++ [Geocode address].
Proof.
  unfold geocode_one_body.
  destruct (gmaps_client (calls tr) address) as [[|best rest]|msg];
    [reflexivity | | destruct (quota_exceeded msg); reflexivity].
  destruct (place_geometry best) as [g|]; [|reflexivity].
  destruct (geometry_location g); reflexivity.
Qed.

(** The body raises [RateLimitError] only for a failure of the provider
    whose text has a quota marker, with that text. *)
Lemma geocode_one_body_rate_limit (tr : trace) (m : string) :
  fst (geocode_one_body gmaps_client address tr) = Raise (RateLimitError m) <->
  gmaps_client (calls tr) address = Fails m /\ quota_exceeded m = true.
Proof.
  unfold geocode_one_body.
  destruct (gmaps_client (calls tr) address) as [[|best rest]|msg].
  - simpl. split; [discriminate | intros [H _]; discriminate H].
  - destruct (place_geometry best) as [g|];
      [destruct (geometry_location g)|]; simpl;
      (split; [discriminate | intros [H _]; discriminate H]).
  - destruct (quota_exceeded msg) eqn:E; simpl; split.
    + intros H. injection H as <-. now split.
    + now intros [[= ->] _].
    + discriminate.
    + intros [[= ->] H]. congruence.
Qed.

End Adapter.

(** C6. One call of the body of [geocode_one] raises [RateLimitError]
    exactly when the provider fails with a text in which
    "OVER_QUERY_LIMIT" or "OVER_DAILY_LIMIT" occurs, and then with that
    text; when the provider returns no result the body returns [None]
    and raises nothing; and any other failure of the provider comes out
    as the same failure, with the same text. *)
Theorem geocode_one_body_outcomes :
  forall (gmaps_client : provider) (address : string) (tr : trace),
    ((exists m, fst (geocode_one_body gmaps_client address tr)
                = Raise (RateLimitError m))
     <-> (exists msg marker,
            gmaps_client (calls tr) address = Fails msg /\
            In marker ["OVER_QUERY_LIMIT"; "OVER_DAILY_LIMIT"] /\
            occurs_in marker msg))
    /\ (forall msg marker,
          gmaps_client (calls tr) address = Fails msg ->
          In marker ["OVER_QUERY_LIMIT"; "OVER_DAILY_LIMIT"] ->
          occurs_in marker msg ->
          fst (geocode_one_body gmaps_client address tr)
          = Raise (RateLimitError msg))
    /\ (gmaps_client (calls tr) address = Results [] ->
        fst (geocode_one_body gmaps_client address tr) = Return None)
    /\ (forall msg,
          gmaps_client (calls tr) address = Fails msg ->
          (forall marker, In marker ["OVER_QUERY_LIMIT"; "OVER_DAILY_LIMIT"] ->
                          ~ occurs_in marker msg) ->
          fst (geocode_one_body gmaps_client address tr) = Raise (Failure msg))
    /\ snd (geocode_one_body gmaps_client address tr) = tr ++ [Geocode address].
Proof.
  intros gmaps_client address tr.
  split; [|split; [|split; [|split]]].
  - split.
    + intros [m H]. apply geocode_one_body_rate_limit in H.
      destruct H as [Hf Hq]. apply quota_exceeded_true in Hq.
      destruct Hq as [marker [Hin Hocc]]. now exists m, marker.
    + intros [msg [marker [Hf [Hin Hocc]]]]. exists msg.
      apply geocode_one_body_rate_limit. split; [exact Hf|].
      apply quota_exceeded_true. now exists marker.
  - intros msg marker Hf Hin Hocc.
    apply geocode_one_body_rate_limit. split; [exact Hf|].
    apply quota_exceeded_true. now exists marker.
  - intros H. unfold geocode_one_body. now rewrite H.
  - intros msg Hf Hno. unfold geocode_one_body. rewrite Hf.
    destruct (quota_exceeded msg) eqn:E; [|reflexivity].
    apply quota_exceeded_true in E. destruct E as [marker [Hin Hocc]].
    exfalso. exact (Hno marker Hin Hocc).
  - apply geocode_one_body_trace.
Qed.

Section RetryPolicy.

Variable gmaps_client : provider.
Variable address : string.

Let body := geocode_one_body gmaps_client address.
Let policy := attempts is_rate_limit (wait_exponential 1 2 60) true body.

(** The loop of the decorator, started at attempt [k] with [more]
    attempts allowed after it: some number [n <= more] of attempts raise
    [RateLimitError] and are followed by a pause, and the outcome is that
    of the next attempt, which is the last. *)
Lemma attempts_run (more : nat) :
  forall (k : nat) (tr : trace),
  exists n,
    n <= more /\
    (forall j, j < n ->
       exists m, fst (body (tr ++ failed_attempts address k j))
                 = Raise (RateLimitError m)) /\
    (n < more ->
       forall m, fst (body (tr ++ failed_attempts address k n))
                 <> Raise (RateLimitError m)) /\
    policy more k tr
    = (fst (body (tr ++ failed_attempts address k n)),
       tr ++ failed_attempts address k n ++ [Geocode address]).
Proof.
  induction more as [|more IH]; intros k tr.
  - exists 0. split; [lia|]. split; [intros j Hj; lia|]. split; [lia|].
    cbn [failed_attempts app]. rewrite app_nil_r.
    unfold policy. cbn [attempts].
    pose proof (geocode_one_body_trace gmaps_client address tr) as Ht.
    fold body in Ht. destruct (body tr) as [[a|e] tr']; simpl in Ht; subst tr';
      [reflexivity|]. now destruct (is_rate_limit e).
  - pose proof (geocode_one_body_trace gmaps_client address tr) as Ht.
    fold body in Ht.
    destruct (body tr) as [o tr'] eqn:Eb. simpl in Ht. subst tr'.
    assert (Hstop : (forall m, o <> Raise (RateLimitError m)) ->
              policy (S more) k tr = (o, tr ++ [Geocode address])).
    { intros Hno. unfold policy. cbn [attempts]. rewrite Eb.
      destruct o as [a|e]; [reflexivity|].
      destruct e; try reflexivity. exfalso. now apply (Hno msg). }
    destruct o as [a|e].
    + exists 0. split; [lia|]. split; [intros j Hj; lia|].
      cbn [failed_attempts app]. rewrite app_nil_r, Eb. cbn [fst].
      split; [discriminate|]. apply Hstop. discriminate.
    + destruct (is_rate_limit e) eqn:Erl.
      * destruct e as [m| | |]; try discriminate Erl.
        destruct (IH (S k)
                    ((tr ++ [Geocode address])
                       ++ [Backoff (wait_exponential 1 2 60 k)]))
          as [n [Hn [Hall [Hlast Hrun]]]].
        assert (Hshift : forall j,
                  ((tr ++ [Geocode address])
                     ++ [Backoff (wait_exponential 1 2 60 k)])
                    ++ failed_attempts address (S k) j
                  = tr ++ failed_attempts address k (S j)).
        { intros j. cbn [failed_attempts]. now rewrite <- !app_assoc. }
        exists (S n). split; [lia|]. split; [|split].
        -- intros j Hj. destruct j as [|j].
           ++ exists m. cbn [failed_attempts]. now rewrite app_nil_r, Eb.
           ++ rewrite <- Hshift. apply Hall. lia.
        -- intros Hlt m'. rewrite <- Hshift. apply Hlast. lia.
        -- unfold policy. cbn [attempts]. rewrite Eb. cbn [is_rate_limit].
           unfold policy in Hrun. rewrite Hrun, Hshift.
           f_equal. cbn [failed_attempts]. now rewrite <- !app_assoc.
      * exists 0. split; [lia|]. split; [intros j Hj; lia|].
        cbn [failed_attempts app]. rewrite app_nil_r, Eb. cbn [fst].
        split; [intros _ m' H; injection H as ->; discriminate Erl|].
        apply Hstop. intros m' H. injection H as ->. discriminate Erl.
Qed.

(** The pauses of up to five failed attempts. *)
Lemma failed_attempts_backoffs (n : nat) :
  n <= 5 ->
  backoffs (failed_attempts address 1 n) = firstn n [2; 2; 4; 8; 16]%Z.
Proof.
  intros Hn.
  do 6 (destruct n as [|n]; [reflexivity|]). lia.
Qed.

Lemma failed_attempts_calls (k n : nat) :
  calls (failed_attempts address k n ++ [Geocode address])
  = repeat address (S n).
Proof.
  revert k. induction n as [|n IH]; intros k; [reflexivity|].
  change (repeat address (S (S n))) with (address :: repeat address (S n)).
  rewrite <- (IH (S k)). reflexivity.
Qed.

End RetryPolicy.

(** C5. One call of the decorated [geocode_one] makes between one and six
    calls of the provider.  Every attempt but the last raised
    [RateLimitError] and was followed by a pause; the pauses are 2, 2, 4,
    8 and 16 seconds, all between 2 and 60; the call ends with the
    outcome of its last attempt, and it ends before the sixth attempt
    only when the attempt did not raise [RateLimitError].  Hence an
    exception that is not a [RateLimitError] comes out of the first
    attempt that raises it, without a pause or a second call, and when
    the provider reports a used-up quota every time, the sixth attempt's
    [RateLimitError] is raised to the caller. *)
Theorem geocode_one_retry_policy :
  forall (gmaps_client : provider) (address : string) (tr : trace),
    (exists n,
       n <= 5 /\
       (forall j, j < n ->
          exists m,
            fst (geocode_one_body gmaps_client address
                   (tr ++ failed_attempts address 1 j))
            = Raise (RateLimitError m)) /\
       (n < 5 ->
          forall m,
            fst (geocode_one_body gmaps_client address
                   (tr ++ failed_attempts address 1 n))
            <> Raise (RateLimitError m)) /\
       geocode_one gmaps_client address tr
       = (fst (geocode_one_body gmaps_client address
                 (tr ++ failed_attempts address 1 n)),
          tr ++ failed_attempts address 1 n ++ [Geocode address]) /\
       backoffs (failed_attempts address 1 n) = firstn n [2; 2; 4; 8; 16]%Z /\
       Forall (fun w => 2 <= w <= 60)%Z (backoffs (failed_attempts address 1 n)) /\
       calls (failed_attempts address 1 n ++ [Geocode address])
       = repeat address (S n))
    /\ (forall e,
          fst (geocode_one_body gmaps_client address tr) = Raise e ->
          is_rate_limit e = false ->
          geocode_one gmaps_client address tr
          = (Raise e, tr ++ [Geocode address]))
    /\ ((forall history,
           exists m, gmaps_client history address = Fails m
                     /\ quota_exceeded m = true) ->
        exists m,
          geocode_one gmaps_client address tr
          = (Raise (RateLimitError m),
             tr ++ [Geocode address; Backoff 2; Geocode address; Backoff 2;
                    Geocode address; Backoff 4; Geocode address; Backoff 8;
                    Geocode address; Backoff 16; Geocode address])).
Proof.
  intros gmaps_client address tr.
  destruct (attempts_run gmaps_client address 5 1 tr)
    as [n [Hn [Hall [Hlast Hrun]]]].
  split; [|split].
  - exists n. split; [exact Hn|]. split; [exact Hall|].
    split; [intros H; apply Hlast; lia|]. split; [exact Hrun|].
    split; [now apply failed_attempts_backoffs|].
    split; [|apply failed_attempts_calls].
    rewrite failed_attempts_backoffs by exact Hn.
    do 6 (destruct n as [|n];
          [cbn [firstn]; repeat constructor; lia|]).
    lia.
  - intros e He Hrl.
    destruct n as [|n].
    + unfold geocode_one, retry. cbn [Nat.sub].
      rewrite Hrun. cbn [failed_attempts app]. rewrite app_nil_r, He.
      reflexivity.
    + destruct (Hall 0) as [m Hm]; [lia|].
      cbn [failed_attempts] in Hm. rewrite app_nil_r, He in Hm.
      injection Hm as ->. discriminate Hrl.
  - intros Hquota.
    assert (Hrl : forall t, exists m,
              fst (geocode_one_body gmaps_client address t)
              = Raise (RateLimitError m)).
    { intros t. destruct (Hquota (calls t)) as [m [Hf Hq]]. exists m.
      apply geocode_one_body_rate_limit. now split. }
    assert (n = 5).
    { destruct (Nat.eq_dec n 5) as [E|E]; [exact E|]. exfalso.
      destruct (Hrl (tr ++ failed_attempts address 1 n)) as [m Hm].
      apply (Hlast ltac:(lia) m Hm). }
    subst n.
    destruct (Hrl (tr ++ failed_attempts address 1 5)) as [m Hm].
    exists m. unfold geocode_one, retry. cbn [Nat.sub].
    rewrite Hrun, Hm. reflexivity.
Qed.

Lemma geocode_one_retry_policy_witness :
  (forall history,
     exists m, Sample.gm_quota history "Ring 2,  , Austria" = Fails m
               /\ quota_exceeded m = true)
  /\ exists m,
       geocode_one Sample.gm_quota "Ring 2,  , Austria" []
       = (Raise (RateLimitError m),
          [] ++ [Geocode "Ring 2,  , Austria"; Backoff 2;
                 Geocode "Ring 2,  , Austria"; Backoff 2;
                 Geocode "Ring 2,  , Austria"; Backoff 4;
                 Geocode "Ring 2,  , Austria"; Backoff 8;
                 Geocode "Ring 2,  , Austria"; Backoff 16;
                 Geocode "Ring 2,  , Austria"]).
Proof.
  assert (H : forall history,
            exists m, Sample.gm_quota history "Ring 2,  , Austria" = Fails m
                      /\ quota_exceeded m = true).
  { intros history. exists "OVER_QUERY_LIMIT". split; reflexivity. }
  split; [exact H|].
  exact (proj2 (proj2 (geocode_one_retry_policy
                         Sample.gm_quota "Ring 2,  , Austria" [])) H).
Defined.

(** * Properties of the driver *)

Section Driver.

Variable gmaps_client : provider.

(** A call whose first attempt does not raise [RateLimitError] is that
    attempt. *)
Lemma geocode_one_first_attempt (address : string) (tr : trace)
  (o : outcome (option Geo.t)) :
  fst (geocode_one_body gmaps_client address tr) = o ->
  (forall m, o <> Raise (RateLimitError m)) ->
  geocode_one gmaps_client address tr = (o, tr ++ [Geocode address]).
Proof.
  intros Ho Hno.
  destruct (attempts_run gmaps_client address 5 1 tr)
    as [n [_ [Hall [_ Hrun]]]].
  destruct n as [|n].
  - unfold geocode_one, retry. cbn [Nat.sub]. rewrite Hrun.
    cbn [failed_attempts app]. now rewrite app_nil_r, Ho.
  - destruct (Hall 0) as [m Hm]; [lia|].
    cbn [failed_attempts] in Hm. rewrite app_nil_r, Ho in Hm.
    exfalso. exact (Hno m Hm).
Qed.

Lemma calls_app (a b : trace) : calls (a ++ b) = calls a ++ calls b.
Proof.
  induction a as [|ev a IH]; [reflexivity|].
  destruct ev; simpl; now rewrite IH.
Qed.

(** The provider calls of one [geocode_one]: the address, at least once
    and at most six times. *)
Lemma geocode_one_calls (address : string) (tr : trace) :
  exists n, n <= 5 /\
    calls (snd (geocode_one gmaps_client address tr))
    = calls tr ++ repeat address (S n).
Proof.
  destruct (attempts_run gmaps_client address 5 1 tr)
    as [n [Hn [_ [_ Hrun]]]].
  exists n. split; [exact Hn|].
  unfold geocode_one, retry. cbn [Nat.sub]. rewrite Hrun. cbn [snd].
  now rewrite calls_app, failed_attempts_calls.
Qed.

(** The list [results] only grows. *)
Lemma fetch_loop_results (to_fetch : list merged_row) :
  forall results tr,
  exists later,
    snd (fst (fetch_loop gmaps_client to_fetch results tr)) = results ++ later.
Proof.
  induction to_fetch as [|row rest IH]; intros results tr.
  - exists []. simpl. now rewrite app_nil_r.
  - cbn [fetch_loop].
    destruct (geocode_one gmaps_client
                (Addr.address_for_geocoding (fst row)) tr) as [[[data|]|e] tr'].
    + destruct (IH (results ++ [ok_entry (Addr.address_for_geocoding (fst row)) data])
                   (tr' ++ [Sleep])) as [later H].
      eexists. rewrite H, <- app_assoc. reflexivity.
    + destruct (IH (results ++ [not_found_entry (Addr.address_for_geocoding (fst row))])
                   (tr' ++ [Sleep])) as [later H].
      eexists. rewrite H, <- app_assoc. reflexivity.
    + destruct e as [m|k| |m];
        try (match goal with
             | |- context [error_entry ?a ?x] =>
                 destruct (IH (results ++ [error_entry a x]) (tr' ++ [Sleep]))
                   as [later H];
                 eexists; rewrite H, <- app_assoc; reflexivity
             end).
      exists []. simpl. now rewrite app_nil_r.
Qed.

End Driver.

(** C3. For the row of [to_fetch] that the loop is at, with the outcome
    of its [geocode_one] call: a returned result appends an entry with
    status "OK" and the result's coordinates and place id; [None] (the
    provider had no result) appends an entry with status "NOT_FOUND" and
    null coordinates; an exception other than [RateLimitError] appends an
    entry with null coordinates whose status is "ERROR: " followed by the
    exception's text, which for a failure of the provider is the text of
    that failure.  In each case the loop goes on with the rows that
    remain, and the appended entry stays in [results]. *)
Theorem fetch_loop_records_outcome :
  forall (gmaps_client : provider) (row : merged_row) (rest : list merged_row)
         (results : list CacheEntry) (tr tr' : trace)
         (o : outcome (option Geo.t)),
    geocode_one gmaps_client (Addr.address_for_geocoding (fst row)) tr = (o, tr') ->
    (forall data,
       o = Return (Some data) ->
       fetch_loop gmaps_client (row :: rest) results tr
       = fetch_loop gmaps_client rest
           (results ++ [Entry.mk (Addr.address_for_geocoding (fst row))
                                 (Geo.latitude data) (Geo.longitude data)
                                 (Geo.place_id data) "OK"])
           (tr' ++ [Sleep]))
    /\ (o = Return None ->
        fetch_loop gmaps_client (row :: rest) results tr
        = fetch_loop gmaps_client rest
            (results ++ [Entry.mk (Addr.address_for_geocoding (fst row))
                                  None None None "NOT_FOUND"])
            (tr' ++ [Sleep]))
    /\ (forall e,
          o = Raise e -> is_rate_limit e = false ->
          fetch_loop gmaps_client (row :: rest) results tr
          = fetch_loop gmaps_client rest
              (results ++ [Entry.mk (Addr.address_for_geocoding (fst row))
                                    None None None ("ERROR: " ++ str_exn e)])
              (tr' ++ [Sleep])
          /\ str_exn e = match e with
                         | Failure msg => msg
                         | KeyError shown => shown
                         | RetryError => "RetryError"
                         | RateLimitError msg => msg
                         end)
    /\ (forall entry t,
          exists later,
            snd (fst (fetch_loop gmaps_client rest (results ++ [entry]) t))
            = results ++ [entry] ++ later)
    /\ (gmaps_client (calls tr) (Addr.address_for_geocoding (fst row)) = Results [] ->
        o = Return None)
    /\ (forall best others g loc,
          gmaps_client (calls tr) (Addr.address_for_geocoding (fst row))
          = Results (best :: others) ->
          place_geometry best = Some g ->
          geometry_location g = Some loc ->
          o = Return (Some (Geo.mk (lat loc) (lng loc) (place_place_id best)
                                   (place_formatted_address best))))
    /\ (forall msg,
          gmaps_client (calls tr) (Addr.address_for_geocoding (fst row))
          = Fails msg ->
          quota_exceeded msg = false ->
          o = Raise (Failure msg)
          /\ fetch_loop gmaps_client (row :: rest) results tr
             = fetch_loop gmaps_client rest
                 (results ++ [Entry.mk (Addr.address_for_geocoding (fst row))
                                       None None None ("ERROR: " ++ msg)])
                 (tr' ++ [Sleep])).
Proof.
  intros gmaps_client row rest results tr tr' o Hg.
  assert (Hfirst : forall o',
            fst (geocode_one_body gmaps_client
                   (Addr.address_for_geocoding (fst row)) tr) = o' ->
            (forall m, o' <> Raise (RateLimitError m)) -> o = o').
  { intros o' Ho' Hno.
    rewrite (geocode_one_first_attempt gmaps_client _ tr o' Ho' Hno) in Hg.
    now injection Hg as <- _. }
  split; [|split; [|split; [|split; [|split; [|split]]]]].
  - intros data ->. cbn [fetch_loop]. now rewrite Hg.
  - intros ->. cbn [fetch_loop]. now rewrite Hg.
  - intros e -> Hrl. split; [|now destruct e].
    cbn [fetch_loop]. rewrite Hg.
    destruct e; try reflexivity. discriminate Hrl.
  - intros entry t.
    destruct (fetch_loop_results gmaps_client rest (results ++ [entry]) t)
      as [later H].
    exists later. now rewrite H, <- app_assoc.
  - intros Hr. apply Hfirst; [|discriminate].
    unfold geocode_one_body. now rewrite Hr.
  - intros best others g loc Hr Hgeo Hloc. apply Hfirst; [|discriminate].
    unfold geocode_one_body. now rewrite Hr, Hgeo, Hloc.
  - intros msg Hr Hq.
    assert (Ho : o = Raise (Failure msg)).
    { apply Hfirst; [|discriminate].
      unfold geocode_one_body. now rewrite Hr, Hq. }
    split; [exact Ho|]. subst o. cbn [fetch_loop]. now rewrite Hg.
Qed.

Lemma fetch_loop_records_outcome_witness :
  geocode_one Sample.gm_timeout
              (Addr.address_for_geocoding (fst (Sample.rec_wien, @None CacheEntry))) []
  = (Raise (Failure "timed out"), [Geocode "Ring 2,  , Austria"])
  /\ Sample.gm_timeout (calls [])
       (Addr.address_for_geocoding (fst (Sample.rec_wien, @None CacheEntry)))
     = Fails "timed out"
  /\ quota_exceeded "timed out" = false
  /\ fetch_loop Sample.gm_timeout [(Sample.rec_wien, None)] [] []
     = fetch_loop Sample.gm_timeout []
         ([] ++ [Entry.mk "Ring 2,  , Austria" None None None
                          "ERROR: timed out"])
         ([Geocode "Ring 2,  , Austria"] ++ [Sleep]).
Proof.
  split; [reflexivity|]. split; [reflexivity|]. split; [reflexivity|].
  exact (proj2
           ((proj2 (proj2 (proj2 (proj2 (proj2 (proj2
               (fetch_loop_records_outcome Sample.gm_timeout
                  (Sample.rec_wien, None) [] [] []
                  [Geocode "Ring 2,  , Austria"]
                  (Raise (Failure "timed out")) eq_refl)))))))
              "timed out" eq_refl eq_refl)).
Defined.

(** ** The cache frame and the file *)

Section CacheFacts.

(** Case analysis on the test of [drop_duplicates_last]. *)
Ltac case_later_row E :=
  match goal with
  | |- context [existsb ?f ?l] => destruct (existsb f l) eqn:E
  | H : context [existsb ?f ?l] |- _ => destruct (existsb f l) eqn:E
  end.

Lemma drop_duplicates_last_in (df : list CacheEntry) (e : CacheEntry) :
  In e (drop_duplicates_last df) -> In e df.
Proof.
  induction df as [|a df IH]; simpl; [tauto|].
  case_later_row E; simpl; intuition.
Qed.

(** What the de-duplication of a tail keeps, the whole frame keeps. *)
Lemma drop_duplicates_last_suffix (front df : list CacheEntry) (e : CacheEntry) :
  In e (drop_duplicates_last df) -> In e (drop_duplicates_last (front ++ df)).
Proof.
  intros H. induction front as [|a front IH]; simpl; [exact H|].
  case_later_row E; simpl; auto.
Qed.

(** The last row of an address is kept. *)
Lemma drop_duplicates_last_keeps_last (front back : list CacheEntry)
  (e : CacheEntry) :
  (forall e', In e' back ->
     Entry.address_for_geocoding e' <> Entry.address_for_geocoding e) ->
  In e (drop_duplicates_last (front ++ e :: back)).
Proof.
  intros Hlast. apply drop_duplicates_last_suffix. simpl.
  case_later_row E; [|now left].
  apply existsb_exists in E. destruct E as [e' [Hin Heq]].
  apply String.eqb_eq in Heq. exfalso. exact (Hlast e' Hin Heq).
Qed.

(** Every address of the frame keeps a row. *)
Lemma drop_duplicates_last_key (df : list CacheEntry) (e : CacheEntry) :
  In e df ->
  exists e', In e' (drop_duplicates_last df)
             /\ Entry.address_for_geocoding e' = Entry.address_for_geocoding e.
Proof.
  revert e. induction df as [|a df IH]; intros e Hin; [contradiction|].
  assert (Htail : forall x, In x df ->
            exists e', In e' (drop_duplicates_last (a :: df))
                       /\ Entry.address_for_geocoding e'
                          = Entry.address_for_geocoding x).
  { intros x Hx. destruct (IH x Hx) as [e' [He' Hk]]. exists e'.
    split; [|exact Hk]. now apply (drop_duplicates_last_suffix [a]). }
  destruct Hin as [->|Hin]; [|now apply Htail].
  simpl. case_later_row E.
  - apply existsb_exists in E. destruct E as [x [Hx Heq]].
    apply String.eqb_eq in Heq. destruct (IH x Hx) as [e' [He' Hk]].
    exists e'. split; [exact He' | congruence].
  - exists e. split; [now left | reflexivity].
Qed.

(** The saved frame has one row per address. *)
Lemma drop_duplicates_last_nodup (df : list CacheEntry) :
  NoDup (keys (drop_duplicates_last df)).
Proof.
  induction df as [|a df IH]; simpl; [constructor|].
  case_later_row E; [exact IH|].
  simpl. constructor; [|exact IH].
  intros Hin. unfold keys in Hin. apply in_map_iff in Hin.
  destruct Hin as [x [Hk Hx]]. apply drop_duplicates_last_in in Hx.
  assert (existsb (fun e' => String.eqb (Entry.address_for_geocoding e')
                                        (Entry.address_for_geocoding a)) df = true).
  { apply existsb_exists. exists x. split; [exact Hx|].
    now apply String.eqb_eq. }
  congruence.
Qed.

End CacheFacts.


(** ** The run *)

Section Run.

Variable gmaps_client : provider.

(** The loop over a frame cut in two: the second part is reached only
    when the first runs out of rows. *)
Lemma fetch_loop_app (pre rest : list merged_row) :
  forall results tr,
    fetch_loop gmaps_client (pre ++ rest) results tr
    = match fetch_loop gmaps_client pre results tr with
      | (Exhausted, results', tr') => fetch_loop gmaps_client rest results' tr'
      | aborted => aborted
      end.
Proof.
  induction pre as [|row pre IH]; intros results tr.
  { cbn [app fetch_loop]. reflexivity. }
  rewrite <- app_comm_cons. cbn [fetch_loop].
  destruct (geocode_one gmaps_client
              (Addr.address_for_geocoding (fst row)) tr) as [[[data|]|e] tr'];
    try apply IH.
  destruct e; try apply IH. reflexivity.
Qed.

(** The provider is called for addresses of [to_fetch] only, and for all
    of them when the loop runs out of rows. *)
Lemma fetch_loop_calls (to_fetch : list merged_row) :
  forall results tr ending results' tr',
    fetch_loop gmaps_client to_fetch results tr = (ending, results', tr') ->
    (forall a, In a (calls tr') ->
       In a (calls tr)
       \/ In a (map (fun m => Addr.address_for_geocoding (fst m)) to_fetch))
    /\ (forall a, In a (calls tr) -> In a (calls tr'))
    /\ (ending = Exhausted ->
        forall a, In a (map (fun m => Addr.address_for_geocoding (fst m)) to_fetch) ->
                  In a (calls tr')).
Proof.
  induction to_fetch as [|row rest IH]; intros results tr ending results' tr' H.
  - injection H as <- <- <-. repeat split; auto. intros _ a [].
  - cbn [fetch_loop] in H.
    destruct (geocode_one_calls gmaps_client
                (Addr.address_for_geocoding (fst row)) tr) as [n [_ Hc]].
    destruct (geocode_one gmaps_client
                (Addr.address_for_geocoding (fst row)) tr) as [o t] eqn:Eg.
    cbn [snd] in Hc.
    assert (Hnew : forall a, In a (calls t) ->
              In a (calls tr) \/ a = Addr.address_for_geocoding (fst row)).
    { intros a Ha. rewrite Hc in Ha. apply in_app_or in Ha.
      destruct Ha as [Ha|Ha]; [now left|]. right.
      exact (repeat_spec _ _ _ Ha). }
    assert (Hold : forall a, In a (calls tr) -> In a (calls t)).
    { intros a Ha. rewrite Hc. apply in_or_app. now left. }
    assert (Hrow : In (Addr.address_for_geocoding (fst row)) (calls t)).
    { rewrite Hc. apply in_or_app. right. now left. }
    assert (Hsleep : calls (t ++ [Sleep]) = calls t).
    { rewrite calls_app. simpl. apply app_nil_r. }
    assert (Hgo : forall entry,
              fetch_loop gmaps_client rest (results ++ [entry]) (t ++ [Sleep])
              = (ending, results', tr') ->
              (forall a, In a (calls tr') ->
                 In a (calls tr)
                 \/ In a (map (fun m => Addr.address_for_geocoding (fst m))
                              (row :: rest)))
              /\ (forall a, In a (calls tr) -> In a (calls tr'))
              /\ (ending = Exhausted ->
                  forall a, In a (map (fun m => Addr.address_for_geocoding (fst m))
                                      (row :: rest)) ->
                            In a (calls tr'))).
    { intros entry Hrest. apply IH in Hrest. rewrite Hsleep in Hrest.
      destruct Hrest as [H1 [H2 H3]]. repeat split.
      - intros a Ha. destruct (H1 a Ha) as [Ht|Hr].
        + destruct (Hnew a Ht) as [Hb| ->]; [now left|]. right. now left.
        + right. now right.
      - intros a Ha. apply H2. now apply Hold.
      - intros He a [<-|Ha]; [now apply H2 | now apply H3]. }
    destruct o as [[data|]|e]; try (now apply (Hgo _ H)).
    destruct e; try (now apply (Hgo _ H)).
    injection H as <- <- <-. repeat split.
    + intros a Ha. destruct (Hnew a Ha) as [Hb| ->]; [now left|].
      right. now left.
    + exact Hold.
    + discriminate.
Qed.

End Run.

Section Join.

Variable combined : list AddressRecord.
Variable cache_df : list CacheEntry.

Lemma matches_true (r : AddressRecord) (e : CacheEntry) :
  matches r e = true <->
  Entry.address_for_geocoding e = Addr.address_for_geocoding r.
Proof. unfold matches. apply String.eqb_eq. Qed.

(** The rows of the left join. *)
Lemma in_merge (r : AddressRecord) (o : option CacheEntry) :
  In (r, o) (merge combined cache_df) <->
  In r combined /\
  match o with
  | None => forall e, In e cache_df ->
                      Entry.address_for_geocoding e <> Addr.address_for_geocoding r
  | Some e => In e cache_df
              /\ Entry.address_for_geocoding e = Addr.address_for_geocoding r
  end.
Proof.
  unfold merge. rewrite in_flat_map. split.
  - intros [r' [Hr' Hin]].
    destruct (filter (matches r') cache_df) as [|m ms] eqn:Ef.
    + destruct Hin as [H|[]]. injection H as <- <-. split; [exact Hr'|].
      intros e He Hk. apply matches_true in Hk.
      assert (Hf : In e (filter (matches r') cache_df))
        by (apply filter_In; now split).
      rewrite Ef in Hf. contradiction.
    + apply in_map_iff in Hin. destruct Hin as [e [H He]].
      injection H as <- <-. split; [exact Hr'|].
      rewrite <- Ef in He. apply filter_In in He.
      destruct He as [He Hk]. apply matches_true in Hk. now split.
  - intros [Hr Ho]. exists r. split; [exact Hr|].
    destruct (filter (matches r) cache_df) as [|m ms] eqn:Ef.
    + destruct o as [e|].
      * destruct Ho as [He Hk]. apply matches_true in Hk.
        assert (Hf : In e (filter (matches r) cache_df))
          by (apply filter_In; now split).
        rewrite Ef in Hf. contradiction.
      * now left.
    + destruct o as [e|].
      * destruct Ho as [He Hk]. apply matches_true in Hk.
        apply in_map_iff. exists e. split; [reflexivity|].
        rewrite <- Ef. apply filter_In. now split.
      * exfalso. assert (Hm : In m (filter (matches r) cache_df))
          by (rewrite Ef; now left).
        apply filter_In in Hm. destruct Hm as [Hm Hk].
        apply matches_true in Hk. exact (Ho m Hm Hk).
Qed.

(** The addresses selected for fetching are those of the records that
    are misses. *)
Lemma in_to_fetch (a : string) :
  In a (map (fun m => Addr.address_for_geocoding (fst m))
            (select_to_fetch (merge combined cache_df))) <->
  (exists r, In r combined /\ Addr.address_for_geocoding r = a)
  /\ is_miss cache_df a.
Proof.
  rewrite in_map_iff. unfold select_to_fetch, is_miss. split.
  - intros [[r o] [Ha Hin]]. cbn [fst] in Ha. subst a.
    apply filter_In in Hin. destruct Hin as [Hin Hnull].
    apply in_merge in Hin. destruct Hin as [Hr Ho].
    split; [now exists r|].
    destruct o as [e|]; [|now left].
    right. exists e. destruct Ho as [He Hk]. repeat split; trivial.
    unfold merged_latitude in Hnull. cbn [snd] in Hnull.
    now destruct (Entry.latitude e).
  - intros [[r [Hr Ha]] Hmiss]. subst a.
    destruct Hmiss as [Hnone|[e [He [Hk Hlat]]]].
    + exists (r, None). split; [reflexivity|].
      apply filter_In. split; [|reflexivity]. apply in_merge. now split.
    + exists (r, Some e). split; [reflexivity|].
      apply filter_In. split; [apply in_merge; now split|].
      unfold merged_latitude. cbn [snd]. now rewrite Hlat.
Qed.

End Join.

(** What [main] does once the client is built, the records are extracted
    and the cache is loaded. *)
Lemma main_after_loading (api_key : string) (xlsx : workbook)
  (cache_path : cache_file) (gmaps_client : provider)
  (combined : list AddressRecord) (cache_df : list CacheEntry)
  (ending : loop_end) (results : list CacheEntry) (tr : trace) :
  prefix "AIza" api_key = true ->
  extract xlsx = Return combined ->
  combined <> [] ->
  load_or_create_cache cache_path = Return cache_df ->
  fetch_loop gmaps_client (select_to_fetch (merge combined cache_df)) [] []
  = (ending, results, tr) ->
  main (Some api_key) xlsx cache_path gmaps_client
  = match ending with
    | RateLimited =>
        mkRun (Exit 3) (snd (flush cache_df results cache_path)) None tr
    | Exhausted =>
        mkRun (Exit 0) (snd (flush cache_df results cache_path))
              (Some (filter (has_country "Germany")
                            (merge combined (fst (flush cache_df results cache_path))),
                     filter (has_country "Austria")
                            (merge combined (fst (flush cache_df results cache_path)))))
              tr
    end.
Proof.
  intros Hkey Hx Hne Hload Hloop. unfold main, Client.
  destruct api_key as [|c k]; [discriminate Hkey|].
  rewrite Hkey, Hx. destruct combined as [|r rest]; [congruence|].
  rewrite Hload, Hloop.
  destruct ending; [|reflexivity].
  now destruct (flush cache_df results cache_path).
Qed.

Section Abort.

Variable gmaps_client : provider.

(** [geocode_one] raises [RateLimitError] only out of its sixth attempt. *)
Lemma geocode_one_rate_limited (address : string) (tr tr' : trace) (m : string) :
  geocode_one gmaps_client address tr = (Raise (RateLimitError m), tr') ->
  tr' = tr ++ failed_attempts address 1 5 ++ [Geocode address]
  /\ calls tr' = calls tr ++ repeat address 6.
Proof.
  intros Hg.
  destruct (attempts_run gmaps_client address 5 1 tr)
    as [n [Hn [_ [Hlast Hrun]]]].
  unfold geocode_one, retry in Hg. cbn [Nat.sub] in Hg.
  rewrite Hrun in Hg. injection Hg as Ho Ht.
  assert (n = 5).
  { destruct (Nat.eq_dec n 5) as [E|E]; [exact E|]. exfalso.
    apply (Hlast ltac:(lia) m Ho). }
  subst n. split; [now symmetry|].
  rewrite <- Ht, calls_app, failed_attempts_calls. reflexivity.
Qed.

(** A loop that ends on [RateLimitError] got through the rows before
    some row and was stopped by the [geocode_one] call of that row. *)
Lemma fetch_loop_aborted (to_fetch : list merged_row) :
  forall results tr results' tr',
    fetch_loop gmaps_client to_fetch results tr = (RateLimited, results', tr') ->
    exists pre row rest tr_pre m,
      to_fetch = pre ++ row :: rest
      /\ fetch_loop gmaps_client pre results tr = (Exhausted, results', tr_pre)
      /\ geocode_one gmaps_client (Addr.address_for_geocoding (fst row)) tr_pre
         = (Raise (RateLimitError m), tr').
Proof.
  induction to_fetch as [|row rest IH]; intros results tr results' tr' H.
  - discriminate H.
  - cbn [fetch_loop] in H.
    destruct (geocode_one gmaps_client
                (Addr.address_for_geocoding (fst row)) tr) as [o t] eqn:Eg.
    assert (Hgo : forall entry,
              (forall rest' res,
                 fetch_loop gmaps_client (row :: rest') res tr
                 = fetch_loop gmaps_client rest' (res ++ [entry]) (t ++ [Sleep])) ->
              fetch_loop gmaps_client rest (results ++ [entry]) (t ++ [Sleep])
              = (RateLimited, results', tr') ->
              exists pre row0 rest0 tr_pre m,
                row :: rest = pre ++ row0 :: rest0
                /\ fetch_loop gmaps_client pre results tr
                   = (Exhausted, results', tr_pre)
                /\ geocode_one gmaps_client
                     (Addr.address_for_geocoding (fst row0)) tr_pre
                   = (Raise (RateLimitError m), tr')).
    { intros entry Hstep Hrest.
      destruct (IH _ _ _ _ Hrest)
        as (pre & row0 & rest0 & tr_pre & m & -> & Hpre & Hrow).
      exists (row :: pre), row0, rest0, tr_pre, m.
      split; [reflexivity|]. split; [|exact Hrow].
      now rewrite Hstep. }
    destruct o as [[data|]|e].
    + refine (Hgo _ _ H). intros rest' res.
      cbn [fetch_loop]. now rewrite Eg.
    + refine (Hgo _ _ H). intros rest' res.
      cbn [fetch_loop]. now rewrite Eg.
    + destruct e as [m|k| |msg];
        try (refine (Hgo _ _ H); intros rest' res;
             cbn [fetch_loop]; now rewrite Eg).
      injection H as <- <-. exists [], row, rest, tr, m.
      split; [reflexivity|]. split; [reflexivity|]. now rewrite Eg.
Qed.

End Abort.

Section Misses.

Variable cache_df : list CacheEntry.

Lemma nodup_keys_same_row (e1 e2 : CacheEntry) :
  NoDup (keys cache_df) ->
  In e1 cache_df -> In e2 cache_df ->
  Entry.address_for_geocoding e1 = Entry.address_for_geocoding e2 ->
  e1 = e2.
Proof.
  unfold keys. induction cache_df as [|a l IH]; simpl; [contradiction|].
  intros Hnd H1 H2 Hk. inversion Hnd as [|x xs Hnotin Hnd']; subst.
  destruct H1 as [->|H1], H2 as [->|H2]; trivial.
  - exfalso. apply Hnotin. rewrite Hk. now apply in_map.
  - exfalso. apply Hnotin. rewrite <- Hk. now apply in_map.
  - now apply IH.
Qed.

Lemma no_resolved_entry_is_miss (addr : string) :
  no_resolved_entry cache_df addr -> is_miss cache_df addr.
Proof.
  intros Hno. unfold is_miss.
  destruct (existsb (fun e => String.eqb (Entry.address_for_geocoding e) addr)
                    cache_df) eqn:E.
  - apply existsb_exists in E. destruct E as [e [He Hk]].
    apply String.eqb_eq in Hk. right. exists e. repeat split; trivial.
    now apply Hno.
  - left. intros e He Hk.
    assert (existsb (fun e => String.eqb (Entry.address_for_geocoding e) addr)
                    cache_df = true).
    { apply existsb_exists. exists e. split; [exact He|].
      now apply String.eqb_eq. }
    congruence.
Qed.

(** With one row per address, a miss is an address without a resolved
    row. *)
Lemma is_miss_no_resolved_entry (addr : string) :
  NoDup (keys cache_df) ->
  is_miss cache_df addr -> no_resolved_entry cache_df addr.
Proof.
  intros Hnd [Hnone|[e [He [Hk Hlat]]]] e' He' Hk'.
  - exfalso. exact (Hnone e' He' Hk').
  - assert (e' = e) by (apply nodup_keys_same_row; congruence).
    now subst e'.
Qed.

End Misses.

(** C2, as the code has it.  For a record extracted in a run whose key
    the client accepts: the record is selected for fetching exactly when
    it is a miss, that is when the loaded cache has no row for its
    address or has a row for it with a null latitude; the provider is
    called for its address only if it is a miss; the run ends with exit
    code 0 or 3, and in a run that ends with 0 the provider is called for
    its address exactly when it is a miss.  When the loaded cache has one
    row per address, a miss is an address without a row that has a
    latitude; then a record whose row has a latitude causes no call, and
    a row with a null latitude (the "NOT_FOUND" and "ERROR" rows) is
    fetched again in every run that ends with 0.  In a run that ends with
    3 the rows to fetch split into the rows before the aborting row, the
    aborting row and the rows after it: the calls of the run are the
    calls for the rows before, followed by six calls for the aborting
    row, and there is no call for a row after it. *)
Theorem provider_called_for_misses :
  forall (api_key : string) (xlsx : workbook) (cache_path : cache_file)
         (gmaps_client : provider) (combined : list AddressRecord)
         (cache_df : list CacheEntry) (r : AddressRecord),
    prefix "AIza" api_key = true ->
    extract xlsx = Return combined ->
    load_or_create_cache cache_path = Return cache_df ->
    In r combined ->
    (In (Addr.address_for_geocoding r)
        (map (fun m => Addr.address_for_geocoding (fst m))
             (select_to_fetch (merge combined cache_df)))
     <-> is_miss cache_df (Addr.address_for_geocoding r))
    /\ (In (Addr.address_for_geocoding r)
           (calls (log (main (Some api_key) xlsx cache_path gmaps_client)))
        -> is_miss cache_df (Addr.address_for_geocoding r))
    /\ (status (main (Some api_key) xlsx cache_path gmaps_client) = Exit 0
        \/ status (main (Some api_key) xlsx cache_path gmaps_client) = Exit 3)
    /\ (status (main (Some api_key) xlsx cache_path gmaps_client) = Exit 0 ->
        (In (Addr.address_for_geocoding r)
            (calls (log (main (Some api_key) xlsx cache_path gmaps_client)))
         <-> is_miss cache_df (Addr.address_for_geocoding r)))
    /\ (NoDup (keys cache_df) ->
        (is_miss cache_df (Addr.address_for_geocoding r)
         <-> no_resolved_entry cache_df (Addr.address_for_geocoding r))
        /\ (forall e c,
              In e cache_df ->
              Entry.address_for_geocoding e = Addr.address_for_geocoding r ->
              Entry.latitude e = Some c ->
              ~ In (Addr.address_for_geocoding r)
                   (calls (log (main (Some api_key) xlsx cache_path gmaps_client)))))
    /\ (forall e,
          In e cache_df ->
          Entry.address_for_geocoding e = Addr.address_for_geocoding r ->
          Entry.latitude e = None ->
          status (main (Some api_key) xlsx cache_path gmaps_client) = Exit 0 ->
          In (Addr.address_for_geocoding r)
             (calls (log (main (Some api_key) xlsx cache_path gmaps_client))))
    /\ (status (main (Some api_key) xlsx cache_path gmaps_client) = Exit 3 ->
        exists pre row rest results tr_pre m,
          select_to_fetch (merge combined cache_df) = pre ++ row :: rest
          /\ fetch_loop gmaps_client pre [] [] = (Exhausted, results, tr_pre)
          /\ geocode_one gmaps_client (Addr.address_for_geocoding (fst row))
                         tr_pre
             = (Raise (RateLimitError m),
                log (main (Some api_key) xlsx cache_path gmaps_client))
          /\ calls (log (main (Some api_key) xlsx cache_path gmaps_client))
             = calls tr_pre ++ repeat (Addr.address_for_geocoding (fst row)) 6
          /\ (forall a,
                In a (calls tr_pre)
                <-> In a (map (fun m => Addr.address_for_geocoding (fst m)) pre))).
Proof.
  intros api_key xlsx cache_path gmaps_client combined cache_df r
         Hkey Hx Hload Hr.
  assert (Hne : combined <> []) by (intros ->; contradiction).
  destruct (fetch_loop gmaps_client (select_to_fetch (merge combined cache_df))
                       [] []) as [[ending results] tr] eqn:Eloop.
  pose proof (main_after_loading api_key xlsx cache_path gmaps_client combined
                cache_df ending results tr Hkey Hx Hne Hload Eloop) as Hmain.
  destruct (fetch_loop_calls gmaps_client _ _ _ _ _ _ Eloop)
    as [Honly [_ Hall]].
  assert (Hlog : log (main (Some api_key) xlsx cache_path gmaps_client) = tr)
    by (rewrite Hmain; now destruct ending).
  assert (Hsel : In (Addr.address_for_geocoding r)
                    (map (fun m => Addr.address_for_geocoding (fst m))
                         (select_to_fetch (merge combined cache_df)))
                 <-> is_miss cache_df (Addr.address_for_geocoding r)).
  { rewrite in_to_fetch. split; [tauto|]. intros Hm. split; [|exact Hm].
    now exists r. }
  assert (Hcalled : In (Addr.address_for_geocoding r) (calls tr) ->
                    is_miss cache_df (Addr.address_for_geocoding r)).
  { intros Hc. destruct (Honly _ Hc) as [[]|Hin]. now apply Hsel. }
  assert (Hdone : status (main (Some api_key) xlsx cache_path gmaps_client)
                  = Exit 0 ->
                  is_miss cache_df (Addr.address_for_geocoding r) ->
                  In (Addr.address_for_geocoding r) (calls tr)).
  { intros Hst Hm. rewrite Hmain in Hst.
    destruct ending; [|discriminate Hst].
    apply Hall; [reflexivity|]. now apply Hsel. }
  rewrite Hlog.
  split; [exact Hsel|]. split; [exact Hcalled|].
  split; [rewrite Hmain; destruct ending; [now left | now right]|].
  split; [intros Hst; split; [exact Hcalled | now apply Hdone]|].
  split.
  - intros Hnd. split.
    + split; [now apply is_miss_no_resolved_entry
             | apply no_resolved_entry_is_miss].
    + intros e c He Hk Hlat Hc.
      pose proof (is_miss_no_resolved_entry cache_df _ Hnd (Hcalled Hc) e He Hk).
      congruence.
  - split.
    + intros e He Hk Hlat Hst. apply Hdone; [exact Hst|].
      right. now exists e.
    + intros Hst. rewrite Hmain in Hst.
      destruct ending; [discriminate Hst|].
      destruct (fetch_loop_aborted gmaps_client _ _ _ _ _ Eloop)
        as (pre & row & rest & tr_pre & m & Hsplit & Hpre & Hrow).
      destruct (geocode_one_rate_limited gmaps_client _ _ _ _ Hrow)
        as [_ Hsix].
      destruct (fetch_loop_calls gmaps_client _ _ _ _ _ _ Hpre)
        as [Hpre_only [_ Hpre_all]].
      exists pre, row, rest, results, tr_pre, m.
      split; [exact Hsplit|]. split; [exact Hpre|]. split; [exact Hrow|].
      split; [exact Hsix|].
      intros a. split.
      * intros Ha. destruct (Hpre_only a Ha) as [[]|Hin]. exact Hin.
      * now apply Hpre_all.
Qed.

Lemma provider_called_for_misses_witness :
  prefix "AIza" "AIza-key" = true
  /\ extract Sample.book = Return [Sample.rec_dresden; Sample.rec_wien]
  /\ load_or_create_cache Sample.cache_not_found
     = Return [Sample.entry_dresden_not_found]
  /\ In Sample.rec_dresden [Sample.rec_dresden; Sample.rec_wien]
  /\ (In (Addr.address_for_geocoding Sample.rec_dresden)
         (map (fun m => Addr.address_for_geocoding (fst m))
              (select_to_fetch
                 (merge [Sample.rec_dresden; Sample.rec_wien]
                        [Sample.entry_dresden_not_found])))
      <-> is_miss [Sample.entry_dresden_not_found]
                  (Addr.address_for_geocoding Sample.rec_dresden)).
Proof.
  split; [reflexivity|]. split; [reflexivity|]. split; [reflexivity|].
  split; [now left|].
  refine (proj1 (provider_called_for_misses "AIza-key" Sample.book
                   Sample.cache_not_found Sample.gm_found
                   [Sample.rec_dresden; Sample.rec_wien]
                   [Sample.entry_dresden_not_found] Sample.rec_dresden
                   _ _ _ _));
    [reflexivity | reflexivity | reflexivity | now left].
Defined.

(** C2 as it is worded fails in two ways.  With no cache file and a
    provider whose quota is used up, the run ends at the first record and
    the provider is never called for the second, which has no cache row.
    With a cache file that has a resolved and an unresolved row for the
    same address, the provider is called for that address. *)
Lemma provider_called_iff_no_resolved_entry_counterexample :
  (extract Sample.book = Return [Sample.rec_dresden; Sample.rec_wien]
   /\ load_or_create_cache None = Return []
   /\ In Sample.rec_wien [Sample.rec_dresden; Sample.rec_wien]
   /\ no_resolved_entry [] (Addr.address_for_geocoding Sample.rec_wien)
   /\ status (main (Some "AIza-key") Sample.book None Sample.gm_quota) = Exit 3
   /\ ~ In (Addr.address_for_geocoding Sample.rec_wien)
           (calls (log (main (Some "AIza-key") Sample.book None Sample.gm_quota))))
  /\ (load_or_create_cache Sample.cache_conflicting
      = Return [Sample.entry_dresden_ok; Sample.entry_dresden_not_found]
      /\ In Sample.rec_dresden [Sample.rec_dresden; Sample.rec_wien]
      /\ ~ no_resolved_entry
             [Sample.entry_dresden_ok; Sample.entry_dresden_not_found]
             (Addr.address_for_geocoding Sample.rec_dresden)
      /\ status (main (Some "AIza-key") Sample.book Sample.cache_conflicting
                       Sample.gm_found) = Exit 0
      /\ In (Addr.address_for_geocoding Sample.rec_dresden)
            (calls (log (main (Some "AIza-key") Sample.book Sample.cache_conflicting
                              Sample.gm_found)))).
Proof.
  split.
  - split; [reflexivity|]. split; [reflexivity|].
    split; [right; now left|]. split; [intros e []|]. split; [reflexivity|].
    intros H. vm_compute in H.
    repeat (destruct H as [H|H]; [discriminate H|]). exact H.
  - split; [reflexivity|]. split; [now left|]. split.
    + intros H.
      specialize (H Sample.entry_dresden_ok (or_introl eq_refl) eq_refl).
      discriminate H.
    + split; [reflexivity|]. vm_compute. now left.
Qed.

(** C4, as the code has it.  In a run whose key the client accepts, when
    the loop has gone through the rows [pre] of [to_fetch] and the
    [geocode_one] call of the next row raises [RateLimitError], the run
    ends there: no further row is fetched and
    no output is written, and the exit code is 3, which is neither 0 nor
    the code 2 of a missing key.  If entries were accumulated, the cache
    file is first rewritten with the loaded rows followed by the
    accumulated entries, keeping the last row of each address: every
    accumulated entry that is the last of its address is in the file,
    and every accumulated address has in the file an entry accumulated
    in this run.  If none was accumulated the file is left as it was. *)
Theorem rate_limit_abort_saves_progress :
  forall (api_key : string) (xlsx : workbook) (cache_path : cache_file)
         (gmaps_client : provider) (combined : list AddressRecord)
         (cache_df : list CacheEntry)
         (pre : list merged_row) (row : merged_row) (rest : list merged_row)
         (results : list CacheEntry) (tr tr' : trace) (m : string),
    prefix "AIza" api_key = true ->
    extract xlsx = Return combined ->
    load_or_create_cache cache_path = Return cache_df ->
    select_to_fetch (merge combined cache_df) = pre ++ row :: rest ->
    fetch_loop gmaps_client pre [] [] = (Exhausted, results, tr) ->
    geocode_one gmaps_client (Addr.address_for_geocoding (fst row)) tr
    = (Raise (RateLimitError m), tr') ->
    main (Some api_key) xlsx cache_path gmaps_client
    = mkRun (Exit 3)
            (match results with
             | [] => cache_path
             | _ => Some (Return (drop_duplicates_last (cache_df ++ results)))
             end)
            None tr'
    /\ Exit 3 <> Exit 0
    /\ Exit 3 <> Exit 2
    /\ (forall front e back,
          results = front ++ e :: back ->
          (forall e', In e' back ->
             Entry.address_for_geocoding e' <> Entry.address_for_geocoding e) ->
          In e (drop_duplicates_last (cache_df ++ results)))
    /\ (forall e,
          In e results ->
          exists e',
            In e' (drop_duplicates_last (cache_df ++ results))
            /\ In e' results
            /\ Entry.address_for_geocoding e' = Entry.address_for_geocoding e)
    /\ NoDup (keys (drop_duplicates_last (cache_df ++ results))).
Proof.
  intros api_key xlsx cache_path gmaps_client combined cache_df pre row rest
         results tr tr' m Hkey Hx Hload Hsel Hpre Hrow.
  assert (Hne : combined <> []).
  { intros ->. destruct pre; discriminate Hsel. }
  assert (Hloop : fetch_loop gmaps_client
                    (select_to_fetch (merge combined cache_df)) [] []
                  = (RateLimited, results, tr')).
  { rewrite Hsel, fetch_loop_app, Hpre. cbn [fetch_loop]. now rewrite Hrow. }
  split; [|split; [discriminate|split; [discriminate|split; [|split]]]].
  - rewrite (main_after_loading _ _ _ _ _ _ _ _ _ Hkey Hx Hne Hload Hloop).
    unfold flush, save_cache. now destruct results.
  - intros front e back -> Hlast.
    rewrite app_assoc. now apply drop_duplicates_last_keeps_last.
  - intros e He.
    destruct (drop_duplicates_last_key results e He) as [e' [He' Hk]].
    exists e'. split; [now apply drop_duplicates_last_suffix|].
    split; [now apply drop_duplicates_last_in | exact Hk].
  - apply drop_duplicates_last_nodup.
Qed.

Lemma rate_limit_abort_saves_progress_witness :
  prefix "AIza" "AIza-key" = true
  /\ extract Sample.book_twice
     = Return [Sample.rec_dresden; Sample.rec_dresden; Sample.rec_wien]
  /\ load_or_create_cache None = Return []
  /\ select_to_fetch
       (merge [Sample.rec_dresden; Sample.rec_dresden; Sample.rec_wien] [])
     = [(Sample.rec_dresden, None); (Sample.rec_dresden, None)]
         ++ (Sample.rec_wien, None) :: []
  /\ fetch_loop Sample.gm_flaky
       [(Sample.rec_dresden, None); (Sample.rec_dresden, None)] [] []
     = (Exhausted, [Sample.entry_dresden_ok; Sample.entry_dresden_error],
        [Geocode "Hauptstr. 1, 1067 Dresden, Germany"; Sleep;
         Geocode "Hauptstr. 1, 1067 Dresden, Germany"; Sleep])
  /\ main (Some "AIza-key") Sample.book_twice None Sample.gm_flaky
     = mkRun (Exit 3)
             (Some (Return (drop_duplicates_last
                              ([] ++ [Sample.entry_dresden_ok;
                                      Sample.entry_dresden_error]))))
             None
             (snd (geocode_one Sample.gm_flaky "Ring 2,  , Austria"
                     [Geocode "Hauptstr. 1, 1067 Dresden, Germany"; Sleep;
                      Geocode "Hauptstr. 1, 1067 Dresden, Germany"; Sleep])).
Proof.
  split; [reflexivity|]. split; [reflexivity|]. split; [reflexivity|].
  split; [reflexivity|]. split; [reflexivity|].
  refine (proj1 (rate_limit_abort_saves_progress "AIza-key" Sample.book_twice None
                   Sample.gm_flaky
                   [Sample.rec_dresden; Sample.rec_dresden; Sample.rec_wien] []
                   [(Sample.rec_dresden, None); (Sample.rec_dresden, None)]
                   (Sample.rec_wien, None) []
                   [Sample.entry_dresden_ok; Sample.entry_dresden_error]
                   _ _ "OVER_QUERY_LIMIT" _ _ _ _ _ _));
    [reflexivity | reflexivity | reflexivity | reflexivity | reflexivity
    | reflexivity].
Defined.

(** C4 as it is worded fails when an address is fetched twice in a run.
    The workbook lists the Dresden address in two rows; the provider
    answers the first call, fails at the second and reports a used-up
    quota from the third on.  The run accumulates an "OK" entry and then
    an "ERROR" entry for the address and ends with exit code 3; the file
    then holds the "ERROR" entry only. *)
Lemma rate_limit_abort_flushes_every_entry_counterexample :
  snd (fst (fetch_loop Sample.gm_flaky
              (select_to_fetch
                 (merge [Sample.rec_dresden; Sample.rec_dresden; Sample.rec_wien]
                        [])) [] []))
  = [Sample.entry_dresden_ok; Sample.entry_dresden_error]
  /\ status (main (Some "AIza-key") Sample.book_twice None Sample.gm_flaky) = Exit 3
  /\ cache_after (main (Some "AIza-key") Sample.book_twice None Sample.gm_flaky)
     = Some (Return [Sample.entry_dresden_error])
  /\ In Sample.entry_dresden_ok
        [Sample.entry_dresden_ok; Sample.entry_dresden_error]
  /\ ~ In Sample.entry_dresden_ok [Sample.entry_dresden_error].
Proof.
  split; [reflexivity|]. split; [reflexivity|]. split; [reflexivity|].
  split; [now left|].
  intros [H|[]]. discriminate H.
Qed.

(** C1.  The file that [save_cache] writes has one row per address.  The
    frame that [main] joins at the end has not: with a cache file left by
    a run that did not find the Dresden address and a provider that now
    finds it, the run extracts one German record and writes two rows for
    it, the old "NOT_FOUND" row and the new "OK" row, while the file it
    saves holds the "OK" row alone. *)
Theorem final_join_repeats_refetched_record :
  (forall cache_df, NoDup (keys (drop_duplicates_last cache_df)))
  /\ extract Sample.book = Return [Sample.rec_dresden; Sample.rec_wien]
  /\ load_or_create_cache Sample.cache_not_found
     = Return [Sample.entry_dresden_not_found]
  /\ status (main (Some "AIza-key") Sample.book Sample.cache_not_found Sample.gm_found)
     = Exit 0
  /\ written (main (Some "AIza-key") Sample.book Sample.cache_not_found Sample.gm_found)
     = Some ([(Sample.rec_dresden, Some Sample.entry_dresden_not_found);
              (Sample.rec_dresden, Some Sample.entry_dresden_ok)],
             [(Sample.rec_wien, Some Sample.entry_wien_ok)])
  /\ cache_after (main (Some "AIza-key") Sample.book Sample.cache_not_found
                       Sample.gm_found)
     = Some (Return [Sample.entry_dresden_ok; Sample.entry_wien_ok]).
Proof.
  split; [exact drop_duplicates_last_nodup|].
  repeat split; reflexivity.
Qed.

(** * Further properties *)

(** ** Start-up failures *)

(** What [main] does with a key the client rejects. *)
Lemma main_rejected_key (key : string) (xlsx : workbook)
  (cache_path : cache_file) (gmaps_client : provider) :
  key <> EmptyString ->
  prefix "AIza" key = false ->
  main (Some key) xlsx cache_path gmaps_client
  = mkRun (Uncaught (Failure "Invalid API key provided.")) cache_path None [].
Proof.
  intros Hne Hrej. unfold main, Client.
  destruct key as [|c k]; [congruence|]. now rewrite Hrej.
Qed.

(** A run that ends with code 0 had a key the client accepts. *)
Lemma completed_run_key (key : string) (xlsx : workbook)
  (cache_path : cache_file) (gmaps_client : provider) :
  status (main (Some key) xlsx cache_path gmaps_client) = Exit 0 ->
  prefix "AIza" key = true.
Proof.
  intros Hst. destruct (prefix "AIza" key) eqn:E; [reflexivity|].
  destruct (String.string_dec key EmptyString) as [->|Hne];
    [discriminate Hst|].
  rewrite (main_rejected_key key xlsx cache_path gmaps_client Hne E) in Hst.
  discriminate Hst.
Qed.

(** X1. Once the command line is parsed, a run stops before any work
    when the key is unusable: with the environment variable unset or
    empty [main] exits with code 2, and with a key that the client
    rejects (one that does not begin with "AIza") it ends with the
    uncaught [ValueError]; in both cases no sheet was read, the provider
    was not called, nothing was written and the cache file is as it was.
    A run that ends with code 0 or 3 had a key the client accepts. *)
Theorem missing_key_exits_2 :
  forall (xlsx : workbook) (cache_path : cache_file) (gmaps_client : provider),
    main None xlsx cache_path gmaps_client = mkRun (Exit 2) cache_path None []
    /\ main (Some EmptyString) xlsx cache_path gmaps_client
       = mkRun (Exit 2) cache_path None []
    /\ (forall key,
          key <> EmptyString ->
          prefix "AIza" key = false ->
          main (Some key) xlsx cache_path gmaps_client
          = mkRun (Uncaught (Failure "Invalid API key provided."))
                  cache_path None [])
    /\ (forall api_key,
          status (main api_key xlsx cache_path gmaps_client) = Exit 0
          \/ status (main api_key xlsx cache_path gmaps_client) = Exit 3 ->
          exists key, api_key = Some key /\ prefix "AIza" key = true).
Proof.
  intros xlsx cache_path gmaps_client.
  split; [reflexivity|]. split; [reflexivity|]. split.
  - intros key Hne Hrej. now apply main_rejected_key.
  - intros [key|] Hst; [|destruct Hst as [H|H]; discriminate H].
    exists key. split; [reflexivity|].
    destruct (prefix "AIza" key) eqn:E; [reflexivity|].
    destruct (String.string_dec key EmptyString) as [->|Hne];
      [destruct Hst as [H|H]; discriminate H|].
    rewrite (main_rejected_key key xlsx cache_path gmaps_client Hne E) in Hst.
    destruct Hst as [H|H]; discriminate H.
Qed.

Lemma missing_key_exits_2_witness :
  "key" <> EmptyString
  /\ prefix "AIza" "key" = false
  /\ main (Some "key") Sample.book Sample.cache_not_found Sample.gm_found
     = mkRun (Uncaught (Failure "Invalid API key provided."))
             Sample.cache_not_found None [].
Proof.
  split; [discriminate|]. split; [reflexivity|].
  apply (proj1 (proj2 (proj2 (missing_key_exits_2 Sample.book
                                Sample.cache_not_found Sample.gm_found))));
    [discriminate | reflexivity].
Defined.

(** A row that raises makes the whole sheet raise. *)
Lemma parse_loop_raises (country_label : string) (df : list row) (r : row)
  (e : exn) :
  In r df ->
  parse_row country_label r = Raise e ->
  forall rows, exists e', parse_loop country_label df rows = Raise e'.
Proof.
  intros Hin Hr. induction df as [|a df IH]; [contradiction|].
  intros rows. cbn [parse_loop].
  destruct (parse_row country_label a) as [[rec|]|e'] eqn:Ea; cbn [bind].
  - destruct Hin as [->|Hin]; [congruence | now apply IH].
  - destruct Hin as [->|Hin]; [congruence | now apply IH].
  - now exists e'.
Qed.

(** X2. A workbook without the sheet "dm DE" or without the sheet
    "dm AT", or with a row in "dm DE" on which [parse_row] raises, ends
    the run with an uncaught exception: the provider is not called,
    nothing is written and the cache file is left as it was. *)
Theorem unreadable_workbook_stops_run :
  forall (api_key : string) (xlsx : workbook) (cache_path : cache_file)
         (gmaps_client : provider),
    api_key <> EmptyString ->
    xlsx "dm DE" = None
    \/ (xlsx "dm AT" = None /\
        exists recs, parse_sheet xlsx "dm DE" "Germany" = Return recs)
    \/ (exists df r e, xlsx "dm DE" = Some df /\ In r df
                       /\ parse_row "Germany" r = Raise e) ->
    exists e,
      main (Some api_key) xlsx cache_path gmaps_client
      = mkRun (Uncaught e) cache_path None [].
Proof.
  intros api_key xlsx cache_path gmaps_client Hkey Hbad.
  assert (Hx : exists e, extract xlsx = Raise e).
  { unfold extract, parse_sheet, read_excel.
    destruct Hbad as [H|[[H [recs Hde]]|[df [r [e [Hdf [Hin Hr]]]]]]].
    - rewrite H. cbn [bind]. eexists; reflexivity.
    - unfold parse_sheet, read_excel in Hde. rewrite Hde, H. cbn [bind].
      eexists; reflexivity.
    - rewrite Hdf. cbn [bind].
      destruct (parse_loop_raises "Germany" df r e Hin Hr []) as [e' He'].
      rewrite He'. cbn [bind]. eexists; reflexivity. }
  destruct (prefix "AIza" api_key) eqn:Ekey.
  - destruct Hx as [e He]. exists e. unfold main, Client.
    destruct api_key as [|c k]; [congruence|]. now rewrite Ekey, He.
  - eexists. now apply main_rejected_key.
Qed.

Lemma unreadable_workbook_stops_run_witness :
  "AIza-key" <> EmptyString
  /\ exists e,
       main (Some "AIza-key") (fun _ => None) None Sample.gm_found
       = mkRun (Uncaught e) None None [].
Proof.
  split; [discriminate|].
  apply (unreadable_workbook_stops_run "AIza-key" (fun _ => None) None
           Sample.gm_found); [discriminate | now left].
Defined.

(** ** The extractor on frames of any width *)

Section Width.

Variable country_label : string.

Lemma getitem_inside (r : row) (i : nat) :
  i < List.length r -> exists c, nth_error r i = Some c.
Proof.
  intros Hi. destruct (nth_error r i) as [c|] eqn:E; [now exists c|].
  apply nth_error_None in E. lia.
Qed.

Lemma parse_row_six_columns (r : row) :
  6 <= List.length r -> exists o, parse_row country_label r = Return o.
Proof.
  intros Hlen.
  destruct (getitem_inside r 0) as [first H0]; [lia|].
  destruct (getitem_inside r 3) as [street H3]; [lia|].
  destruct (getitem_inside r 4) as [c4 H4]; [lia|].
  destruct (getitem_inside r 5) as [c5 H5]; [lia|].
  unfold parse_row, getitem. rewrite H0, H3, H4, H5. cbn [bind].
  destruct (isna first || _); [eexists; reflexivity|].
  destruct (isna street || _); eexists; reflexivity.
Qed.

Lemma row_records_length (r : row) :
  List.length (row_records country_label r) <= 1.
Proof.
  unfold row_records.
  destruct (parse_row country_label r) as [[rec|]|e]; simpl; lia.
Qed.

Lemma flat_map_row_records_length (df : list row) :
  List.length (flat_map (row_records country_label) df) <= List.length df.
Proof.
  induction df as [|r df IH]; [reflexivity|].
  cbn [flat_map]. rewrite length_app. cbn [List.length].
  pose proof (row_records_length r). lia.
Qed.

Lemma parse_loop_six_columns (df : list row) :
  (forall r, In r df -> 6 <= List.length r) ->
  forall rows, exists recs, parse_loop country_label df rows = Return recs.
Proof.
  induction df as [|r df IH]; intros Hwide rows.
  - now exists rows.
  - cbn [parse_loop].
    destruct (parse_row_six_columns r) as [o Ho]; [apply Hwide; now left|].
    rewrite Ho. cbn [bind].
    destruct o; apply IH; intros r' Hr'; apply Hwide; now right.
Qed.

End Width.

(** X3. On a sheet whose rows all have at least six cells, [parse_sheet]
    raises nothing: it returns a list of records, at most one per row,
    which are the records of the rows in their order. *)
Theorem parse_sheet_returns_on_six_columns :
  forall (xlsx : workbook) (sheet_name country_label : string) (df : list row),
    xlsx sheet_name = Some df ->
    (forall r, In r df -> 6 <= List.length r) ->
    exists recs,
      parse_sheet xlsx sheet_name country_label = Return recs
      /\ recs = flat_map (row_records country_label) df
      /\ List.length recs <= List.length df.
Proof.
  intros xlsx sheet_name country_label df Hdf Hwide.
  destruct (parse_loop_six_columns country_label df Hwide []) as [recs Hrecs].
  exists recs.
  assert (Hp : parse_sheet xlsx sheet_name country_label = Return recs).
  { unfold parse_sheet, read_excel. now rewrite Hdf. }
  split; [exact Hp|].
  apply parse_loop_returns in Hrecs. cbn [app] in Hrecs.
  split; [exact Hrecs|]. rewrite Hrecs.
  apply flat_map_row_records_length.
Qed.

Lemma parse_sheet_returns_on_six_columns_witness :
  Sample.book "dm DE" = Some [Sample.row_dresden; Sample.row_gesamt]
  /\ (forall r, In r [Sample.row_dresden; Sample.row_gesamt] -> 6 <= List.length r)
  /\ exists recs,
       parse_sheet Sample.book "dm DE" "Germany" = Return recs
       /\ recs = flat_map (row_records "Germany")
                          [Sample.row_dresden; Sample.row_gesamt]
       /\ List.length recs <= List.length [Sample.row_dresden; Sample.row_gesamt].
Proof.
  assert (H : forall r, In r [Sample.row_dresden; Sample.row_gesamt] ->
                        6 <= List.length r).
  { intros r [<-|[<-|[]]]; simpl; lia. }
  split; [reflexivity|]. split; [exact H|].
  exact (parse_sheet_returns_on_six_columns Sample.book "dm DE" "Germany"
           [Sample.row_dresden; Sample.row_gesamt] eq_refl H).
Defined.

(** X4. A row that is not skipped on its first cell raises [KeyError]
    when the frame is too narrow: for column 3 when the row has at most
    three cells, and, once the street cell is there and is not skipped,
    for column 4 when the row has four cells and for column 5 when it
    has five. *)
Theorem narrow_row_raises_key_error :
  forall (country_label : string) (r : row) (first : cell),
    nth_error r 0 = Some first ->
    first <> NaN ->
    ~ In (PyStr.strip (py_str first)) ["dm-Markt"; "Gesamt"] ->
    (List.length r <= 3 -> parse_row country_label r = Raise (KeyError "3"))
    /\ (forall street,
          nth_error r 3 = Some street ->
          street <> NaN ->
          PyStr.strip (py_str street) <> "Strasse" ->
          (List.length r = 4 -> parse_row country_label r = Raise (KeyError "4"))
          /\ (List.length r = 5 -> parse_row country_label r = Raise (KeyError "5"))).
Proof.
  intros country_label r first H0 Hf Hm.
  apply isna_false in Hf. apply str_in_false in Hm.
  assert (Hhead : parse_row country_label r =
    (street <- getitem r 3 ;;
     if isna street || String.eqb (PyStr.strip (py_str street)) "Strasse"
     then Return None
     else
       c4 <- getitem r 4 ;;
       c5 <- getitem r 5 ;;
       Return (Some (Addr.mk (PyStr.strip (py_str first))
                             (PyStr.strip (py_str street))
                             (plz_of c4) (city_of c5) country_label
                             (format_address (PyStr.strip (py_str street))
                                (plz_of c4) (city_of c5) country_label))))).
  { unfold parse_row at 1. unfold getitem at 1. rewrite H0. cbn [bind].
    unfold skip_markers. now rewrite Hf, Hm. }
  split.
  - intros Hlen. rewrite Hhead. unfold getitem.
    assert (E : nth_error r 3 = None) by (apply nth_error_None; lia).
    now rewrite E.
  - intros street H3 Hs Hh.
    apply isna_false in Hs. apply String.eqb_neq in Hh.
    assert (Hstreet : parse_row country_label r =
      (c4 <- getitem r 4 ;;
       c5 <- getitem r 5 ;;
       Return (Some (Addr.mk (PyStr.strip (py_str first))
                             (PyStr.strip (py_str street))
                             (plz_of c4) (city_of c5) country_label
                             (format_address (PyStr.strip (py_str street))
                                (plz_of c4) (city_of c5) country_label))))).
    { rewrite Hhead. unfold getitem at 1. rewrite H3. cbn [bind].
      now rewrite Hs, Hh. }
    split; intros Hlen; rewrite Hstreet.
    + unfold getitem.
      assert (E : nth_error r 4 = None) by (apply nth_error_None; lia).
      now rewrite E.
    + unfold getitem.
      destruct (getitem_inside r 4) as [c4 H4]; [lia|].
      assert (E : nth_error r 5 = None) by (apply nth_error_None; lia).
      now rewrite H4, E.
Qed.

Lemma narrow_row_raises_key_error_witness :
  nth_error [Text "D1"; NaN; NaN] 0 = Some (Text "D1")
  /\ Text "D1" <> NaN
  /\ ~ In (PyStr.strip (py_str (Text "D1"))) ["dm-Markt"; "Gesamt"]
  /\ (List.length [Text "D1"; NaN; NaN] <= 3 ->
      parse_row "Germany" [Text "D1"; NaN; NaN] = Raise (KeyError "3")).
Proof.
  assert (Hm : ~ In (PyStr.strip (py_str (Text "D1"))) ["dm-Markt"; "Gesamt"]).
  { intros H. vm_compute in H.
    repeat (destruct H as [H|H]; [discriminate H|]). exact H. }
  split; [reflexivity|]. split; [discriminate|]. split; [exact Hm|].
  exact (proj1 (narrow_row_raises_key_error "Germany" [Text "D1"; NaN; NaN]
                  (Text "D1") eq_refl ltac:(discriminate) Hm)).
Defined.

(** ** Stripped fields *)

Section Strip.

Lemma rstrip_idempotent (s : string) :
  PyStr.rstrip (PyStr.rstrip s) = PyStr.rstrip s.
Proof.
  induction s as [|c t IH]; [reflexivity|].
  cbn [PyStr.rstrip].
  destruct (PyStr.rstrip t) as [|d t'] eqn:Et.
  - destruct (PyStr.is_space c) eqn:Ec; [reflexivity|].
    cbn [PyStr.rstrip]. now rewrite Ec.
  - cbn [PyStr.rstrip]. cbn [PyStr.rstrip] in IH.
    destruct (PyStr.rstrip t') as [|d' t''] eqn:Et'.
    + destruct (PyStr.is_space d); [discriminate IH|]. now rewrite IH.
    + now rewrite IH.
Qed.

Lemma lstrip_starts_clean (s : string) : starts_clean (PyStr.lstrip s).
Proof.
  induction s as [|c t IH]; [exact I|].
  cbn [PyStr.lstrip]. destruct (PyStr.is_space c) eqn:Ec; [exact IH|].
  exact Ec.
Qed.

Lemma lstrip_of_clean (s : string) : starts_clean s -> PyStr.lstrip s = s.
Proof.
  destruct s as [|c t]; [reflexivity|]. simpl. intros H. now rewrite H.
Qed.

Lemma rstrip_keeps_clean (s : string) :
  starts_clean s -> starts_clean (PyStr.rstrip s).
Proof.
  destruct s as [|c t]; [trivial|]. intros H. simpl in H.
  cbn [PyStr.rstrip]. destruct (PyStr.rstrip t); [rewrite H|]; exact H.
Qed.

(** A stripped string has no white space at either end. *)
Lemma strip_clean (s : string) :
  PyStr.lstrip (PyStr.strip s) = PyStr.strip s
  /\ PyStr.rstrip (PyStr.strip s) = PyStr.strip s.
Proof.
  unfold PyStr.strip. split.
  - apply lstrip_of_clean, rstrip_keeps_clean, lstrip_starts_clean.
  - apply rstrip_idempotent.
Qed.

End Strip.

(** X5. The identifier and the street of every extracted record have no
    white space at either end: stripping them on the left, on the right
    or on both sides changes nothing; and the address text begins with
    that street. *)
Theorem extracted_code_and_street_are_stripped :
  forall (xlsx : workbook) (sheet_name country_label : string)
         (recs : list AddressRecord) (rec : AddressRecord),
    parse_sheet xlsx sheet_name country_label = Return recs ->
    In rec recs ->
    PyStr.lstrip (Addr.dm_code rec) = Addr.dm_code rec
    /\ PyStr.rstrip (Addr.dm_code rec) = Addr.dm_code rec
    /\ PyStr.strip (Addr.dm_code rec) = Addr.dm_code rec
    /\ PyStr.lstrip (Addr.Strasse rec) = Addr.Strasse rec
    /\ PyStr.rstrip (Addr.Strasse rec) = Addr.Strasse rec
    /\ PyStr.strip (Addr.Strasse rec) = Addr.Strasse rec
    /\ prefix (Addr.Strasse rec) (Addr.address_for_geocoding rec) = true.
Proof.
  intros xlsx sheet_name country_label recs rec Hp Hin.
  destruct (parse_sheet_returns _ _ _ _ Hp) as [df [_ [_ Hrecs]]].
  rewrite Hrecs in Hin. apply in_row_records in Hin.
  destruct Hin as [r [_ Hrow]].
  destruct (parse_row_some _ _ _ Hrow)
    as (first & street & c4 & c5 & _ & _ & _ & _ & _ & _ & _ & _ & ->).
  cbn [Addr.dm_code Addr.Strasse Addr.address_for_geocoding].
  destruct (strip_clean (py_str first)) as [Hl1 Hr1].
  destruct (strip_clean (py_str street)) as [Hl2 Hr2].
  repeat split; trivial.
  - unfold PyStr.strip at 1. now rewrite Hl1, Hr1.
  - unfold PyStr.strip at 1. now rewrite Hl2, Hr2.
  - apply prefix_true. unfold format_address. eexists. reflexivity.
Qed.

Lemma extracted_code_and_street_are_stripped_witness :
  parse_sheet Sample.book "dm DE" "Germany" = Return [Sample.rec_dresden]
  /\ In Sample.rec_dresden [Sample.rec_dresden]
  /\ PyStr.lstrip (Addr.dm_code Sample.rec_dresden)
     = Addr.dm_code Sample.rec_dresden.
Proof.
  split; [reflexivity|]. split; [now left|].
  exact (proj1 (extracted_code_and_street_are_stripped Sample.book "dm DE"
                  "Germany" [Sample.rec_dresden] Sample.rec_dresden
                  eq_refl (or_introl eq_refl))).
Defined.

(** ** Saving the cache *)

Section Saving.

Lemma existsb_key_false (a : string) (df : list CacheEntry) :
  ~ In a (keys df) ->
  existsb (fun e' => String.eqb (Entry.address_for_geocoding e') a) df = false.
Proof.
  intros Hnot.
  destruct (existsb (fun e' => String.eqb (Entry.address_for_geocoding e') a)
                    df) eqn:E; [|reflexivity].
  apply existsb_exists in E. destruct E as [x [Hx Hk]].
  apply String.eqb_eq in Hk. exfalso. apply Hnot. unfold keys.
  rewrite <- Hk. now apply in_map.
Qed.

(** A frame with one row per address is saved as it is. *)
Lemma drop_duplicates_last_nodup_id (df : list CacheEntry) :
  NoDup (keys df) -> drop_duplicates_last df = df.
Proof.
  induction df as [|a df IH]; [reflexivity|].
  intros Hnd. inversion Hnd as [|x xs Hnotin Hnd']; subst.
  cbn [drop_duplicates_last].
  rewrite (existsb_key_false _ df Hnotin). now rewrite IH.
Qed.

(** Each saved row is the last row of its address in the frame. *)
Lemma drop_duplicates_last_is_last (df : list CacheEntry) (e : CacheEntry) :
  In e (drop_duplicates_last df) ->
  exists front back,
    df = front ++ e :: back
    /\ forall e', In e' back ->
         Entry.address_for_geocoding e' <> Entry.address_for_geocoding e.
Proof.
  induction df as [|a df IH]; [contradiction|].
  cbn [drop_duplicates_last].
  destruct (existsb (fun e' => String.eqb (Entry.address_for_geocoding e')
                                          (Entry.address_for_geocoding a)) df)
    eqn:E; intros Hin.
  - destruct (IH Hin) as [front [back [-> Hlast]]].
    now exists (a :: front), back.
  - destruct Hin as [->|Hin].
    + exists [], df. split; [reflexivity|]. intros e' He' Hk.
      assert (existsb (fun x => String.eqb (Entry.address_for_geocoding x)
                                           (Entry.address_for_geocoding e)) df
              = true).
      { apply existsb_exists. exists e'. split; [exact He'|].
        now apply String.eqb_eq. }
      congruence.
    + destruct (IH Hin) as [front [back [-> Hlast]]].
      now exists (a :: front), back.
Qed.

End Saving.

(** X6. De-duplicating with [keep="last"] is idempotent, so saving a
    frame and saving its de-duplicated form write the same file; and the
    de-duplication leaves a frame unchanged exactly when the frame has
    one row per address. *)
Theorem save_cache_idempotent :
  forall cache_df : list CacheEntry,
    drop_duplicates_last (drop_duplicates_last cache_df)
    = drop_duplicates_last cache_df
    /\ save_cache (drop_duplicates_last cache_df) = save_cache cache_df
    /\ (drop_duplicates_last cache_df = cache_df <-> NoDup (keys cache_df)).
Proof.
  intros cache_df.
  assert (Hid : drop_duplicates_last (drop_duplicates_last cache_df)
                = drop_duplicates_last cache_df)
    by apply drop_duplicates_last_nodup_id, drop_duplicates_last_nodup.
  split; [exact Hid|]. split.
  - unfold save_cache. now rewrite Hid.
  - split.
    + intros Hfix. rewrite <- Hfix. apply drop_duplicates_last_nodup.
    + apply drop_duplicates_last_nodup_id.
Qed.

(** X7. The saved file has exactly the addresses of the frame, one row
    each, and the row it keeps for an address is the last row of that
    address in the frame: no row after it has the same address. *)
Theorem save_cache_keeps_last_row :
  forall (cache_df : list CacheEntry),
    NoDup (keys (drop_duplicates_last cache_df))
    /\ (forall a, In a (keys (drop_duplicates_last cache_df))
                  <-> In a (keys cache_df))
    /\ (forall e,
          In e (drop_duplicates_last cache_df) ->
          exists front back,
            cache_df = front ++ e :: back
            /\ forall e', In e' back ->
                 Entry.address_for_geocoding e'
                 <> Entry.address_for_geocoding e)
    /\ (forall front e back,
          cache_df = front ++ e :: back ->
          (forall e', In e' back ->
             Entry.address_for_geocoding e' <> Entry.address_for_geocoding e) ->
          In e (drop_duplicates_last cache_df)).
Proof.
  intros cache_df.
  split; [apply drop_duplicates_last_nodup|].
  split; [|split].
  - intros a. unfold keys. rewrite !in_map_iff. split.
    + intros [e [Hk He]]. exists e. split; [exact Hk|].
      now apply drop_duplicates_last_in.
    + intros [e [Hk He]].
      destruct (drop_duplicates_last_key cache_df e He) as [e' [He' Hk']].
      exists e'. split; [congruence | exact He'].
  - apply drop_duplicates_last_is_last.
  - intros front e back -> Hlast.
    now apply drop_duplicates_last_keeps_last.
Qed.

(** ** The left join *)

Section JoinShape.

Variable cache_df : list CacheEntry.

Lemma filter_matches_nodup (r : AddressRecord) :
  NoDup (keys cache_df) -> List.length (filter (matches r) cache_df) <= 1.
Proof.
  unfold keys. induction cache_df as [|a l IH]; [simpl; lia|].
  intros Hnd. inversion Hnd as [|x xs Hnotin Hnd']; subst.
  cbn [filter]. destruct (matches r a) eqn:Ea; [|now apply IH].
  assert (Hnone : filter (matches r) l = []).
  { destruct (filter (matches r) l) as [|b bs] eqn:Ef; [reflexivity|].
    assert (Hb : In b (filter (matches r) l)) by (rewrite Ef; now left).
    apply filter_In in Hb. destruct Hb as [Hb Hk].
    apply matches_true in Ea. apply matches_true in Hk.
    exfalso. apply Hnotin. rewrite Ea, <- Hk. now apply in_map. }
  rewrite Hnone. simpl. lia.
Qed.

Lemma joined_rows_nonempty (r : AddressRecord) :
  1 <= List.length (joined_rows cache_df r)
  /\ Forall (fun m => fst m = r) (joined_rows cache_df r).
Proof.
  unfold joined_rows. destruct (filter (matches r) cache_df) as [|m ms].
  - split; [simpl; lia|]. now repeat constructor.
  - split; [simpl; lia|]. apply Forall_forall. intros x Hx.
    apply in_map_iff in Hx. destruct Hx as [e [<- _]]. reflexivity.
Qed.

Lemma joined_rows_single (r : AddressRecord) :
  NoDup (keys cache_df) -> map fst (joined_rows cache_df r) = [r].
Proof.
  intros Hnd. pose proof (filter_matches_nodup r Hnd) as Hlen.
  unfold joined_rows.
  destruct (filter (matches r) cache_df) as [|m [|m' ms]]; simpl in *;
    [reflexivity | reflexivity | lia].
Qed.

Lemma merge_cons (r : AddressRecord) (combined : list AddressRecord) :
  merge (r :: combined) cache_df
  = joined_rows cache_df r ++ merge combined cache_df.
Proof. reflexivity. Qed.

End JoinShape.

(** With one cache row per address the join has one row per record. *)
Lemma merge_one_row_per_record (combined : list AddressRecord)
  (cache_df : list CacheEntry) :
  NoDup (keys cache_df) -> map fst (merge combined cache_df) = combined.
Proof.
  intros Hnd. induction combined as [|r combined IH]; [reflexivity|].
  rewrite merge_cons, map_app, joined_rows_single by exact Hnd.
  change ([r] ++ map fst (merge combined cache_df))
    with (r :: map fst (merge combined cache_df)).
  now rewrite IH.
Qed.

(** X8. The left join loses and invents no record: a record is in
    [combined] exactly when the join has a row for it, the join has at
    least as many rows as there are records, and when the cache frame has
    one row per address the join has exactly one row per record, in the
    order of the records. *)
Theorem merge_keeps_every_record :
  forall (combined : list AddressRecord) (cache_df : list CacheEntry),
    (forall r, In r combined <-> exists o, In (r, o) (merge combined cache_df))
    /\ List.length combined <= List.length (merge combined cache_df)
    /\ (NoDup (keys cache_df) -> map fst (merge combined cache_df) = combined).
Proof.
  intros combined cache_df. split; [|split].
  - intros r. split.
    + intros Hr.
      destruct (filter (matches r) cache_df) as [|e es] eqn:Ef.
      * exists None. apply in_merge. split; [exact Hr|].
        intros e He Hk. apply matches_true in Hk.
        assert (Hf : In e (filter (matches r) cache_df))
          by (apply filter_In; now split).
        rewrite Ef in Hf. contradiction.
      * exists (Some e). apply in_merge. split; [exact Hr|].
        assert (Hf : In e (filter (matches r) cache_df))
          by (rewrite Ef; now left).
        apply filter_In in Hf. destruct Hf as [He Hk].
        apply matches_true in Hk. now split.
    + intros [o Ho]. apply in_merge in Ho. tauto.
  - induction combined as [|r combined IH]; [reflexivity|].
    rewrite merge_cons, length_app. cbn [List.length].
    pose proof (proj1 (joined_rows_nonempty cache_df r)). lia.
  - apply merge_one_row_per_record.
Qed.

(** ** What the loop leaves in [results] and in the trace *)

Section LoopShape.

Variable gmaps_client : provider.

Lemma sleeps_app (a b : trace) : sleeps (a ++ b) = sleeps a + sleeps b.
Proof.
  induction a as [|ev a IH]; [reflexivity|]. destruct ev; simpl; now rewrite IH.
Qed.

Lemma backoffs_app (a b : trace) : backoffs (a ++ b) = backoffs a ++ backoffs b.
Proof.
  induction a as [|ev a IH]; [reflexivity|]. destruct ev; simpl; now rewrite IH.
Qed.

Lemma total_backoff_app (a b : trace) :
  total_backoff (a ++ b) = (total_backoff a + total_backoff b)%Z.
Proof.
  unfold total_backoff. rewrite backoffs_app.
  induction (backoffs a) as [|w ws IH]; simpl; [reflexivity|]. lia.
Qed.

Lemma failed_attempts_sleeps (address : string) (k n : nat) :
  sleeps (failed_attempts address k n) = 0.
Proof. revert k. induction n as [|n IH]; intros k; simpl; auto. Qed.

(** What one [geocode_one] call adds to the trace: between one and six
    calls of the provider, no [time.sleep], at most 32 seconds of
    pauses. *)
Lemma geocode_one_effects (address : string) (tr : trace) :
  sleeps (snd (geocode_one gmaps_client address tr)) = sleeps tr
  /\ List.length (calls tr) + 1
     <= List.length (calls (snd (geocode_one gmaps_client address tr)))
     <= List.length (calls tr) + 6
  /\ (total_backoff tr
      <= total_backoff (snd (geocode_one gmaps_client address tr))
      <= total_backoff tr + 32)%Z.
Proof.
  destruct (attempts_run gmaps_client address 5 1 tr)
    as [n [Hn [_ [_ Hrun]]]].
  unfold geocode_one, retry. cbn [Nat.sub]. rewrite Hrun. cbn [snd].
  assert (Hb : (0 <= total_backoff (failed_attempts address 1 n) <= 32)%Z).
  { unfold total_backoff. rewrite (failed_attempts_backoffs address n Hn).
    do 6 (destruct n as [|n]; [simpl; lia|]). lia. }
  rewrite !sleeps_app, failed_attempts_sleeps.
  rewrite calls_app, failed_attempts_calls, length_app, repeat_length.
  rewrite !total_backoff_app.
  change (total_backoff [Geocode address]) with 0%Z.
  change (sleeps [Geocode address]) with 0.
  split; [lia|]. split; lia.
Qed.

(** The loop appends one entry per row it gets through, for that row's
    address; an entry whose status is not "OK" has null coordinates and
    place id; there is one [time.sleep] per entry; and the loop stops
    before the end of [to_fetch] only on [RateLimitError]. *)
Lemma fetch_loop_shape (to_fetch : list merged_row) :
  forall results tr ending results' tr',
    fetch_loop gmaps_client to_fetch results tr = (ending, results', tr') ->
    exists processed remaining new,
      to_fetch = processed ++ remaining
      /\ results' = results ++ new
      /\ keys new = map (fun m => Addr.address_for_geocoding (fst m)) processed
      /\ Forall (fun e => Entry.geocode_status e = "OK"
                          \/ (Entry.latitude e = None
                              /\ Entry.longitude e = None
                              /\ Entry.place_id e = None)) new
      /\ sleeps tr' = sleeps tr + List.length processed
      /\ (ending = Exhausted -> remaining = [])
      /\ (ending = RateLimited -> remaining <> []).
Proof.
  induction to_fetch as [|row rest IH]; intros results tr ending results' tr' H.
  - injection H as <- <- <-. exists [], [], [].
    repeat split; auto; try (simpl; lia); try (intros; discriminate).
    now rewrite app_nil_r.
  - cbn [fetch_loop] in H.
    pose proof (proj1 (geocode_one_effects
                         (Addr.address_for_geocoding (fst row)) tr)) as Hs.
    destruct (geocode_one gmaps_client
                (Addr.address_for_geocoding (fst row)) tr) as [o t].
    cbn [snd] in Hs.
    assert (Hgo : forall entry,
              Entry.address_for_geocoding entry
              = Addr.address_for_geocoding (fst row) ->
              (Entry.geocode_status entry = "OK"
               \/ (Entry.latitude entry = None /\ Entry.longitude entry = None
                   /\ Entry.place_id entry = None)) ->
              fetch_loop gmaps_client rest (results ++ [entry]) (t ++ [Sleep])
              = (ending, results', tr') ->
              exists processed remaining new,
                row :: rest = processed ++ remaining
                /\ results' = results ++ new
                /\ keys new
                   = map (fun m => Addr.address_for_geocoding (fst m)) processed
                /\ Forall (fun e => Entry.geocode_status e = "OK"
                                    \/ (Entry.latitude e = None
                                        /\ Entry.longitude e = None
                                        /\ Entry.place_id e = None)) new
                /\ sleeps tr' = sleeps tr + List.length processed
                /\ (ending = Exhausted -> remaining = [])
                /\ (ending = RateLimited -> remaining <> [])).
    { intros entry Hk Hst Hrest.
      destruct (IH _ _ _ _ _ Hrest)
        as (processed & remaining & new & -> & -> & Hkeys & Hall & Hsl & He & Hr).
      exists (row :: processed), remaining, (entry :: new).
      repeat split; trivial.
      - now rewrite <- app_assoc.
      - cbn [keys map]. unfold keys in Hkeys. now rewrite Hk, Hkeys.
      - now constructor.
      - rewrite Hsl, sleeps_app, Hs. simpl. lia. }
    destruct o as [[data|]|e].
    + refine (Hgo _ _ _ H); [reflexivity | now left].
    + refine (Hgo _ _ _ H); [reflexivity | right; now repeat split].
    + destruct e;
        try (refine (Hgo _ _ _ H); [reflexivity | right; now repeat split]).
      injection H as <- <- <-.
      exists [], (row :: rest), [].
      repeat split; auto; try (simpl; lia); try (intros; discriminate).
      now rewrite app_nil_r.
Qed.

(** The cost of the loop: at most six provider calls and 32 seconds of
    pauses per row. *)
Lemma fetch_loop_cost (to_fetch : list merged_row) :
  forall results tr,
    List.length (calls (snd (fetch_loop gmaps_client to_fetch results tr)))
    <= List.length (calls tr) + 6 * List.length to_fetch
    /\ (total_backoff (snd (fetch_loop gmaps_client to_fetch results tr))
        <= total_backoff tr + 32 * Z.of_nat (List.length to_fetch))%Z.
Proof.
  induction to_fetch as [|row rest IH]; intros results tr.
  - simpl. lia.
  - cbn [fetch_loop].
    destruct (geocode_one_effects (Addr.address_for_geocoding (fst row)) tr)
      as [_ [Hc Hb]].
    destruct (geocode_one gmaps_client
                (Addr.address_for_geocoding (fst row)) tr) as [o t].
    cbn [snd] in Hc, Hb.
    assert (Hgo : forall entry,
      List.length (calls (snd (fetch_loop gmaps_client rest (results ++ [entry])
                                 (t ++ [Sleep]))))
      <= List.length (calls tr) + 6 * List.length (row :: rest)
      /\ (total_backoff (snd (fetch_loop gmaps_client rest (results ++ [entry])
                                (t ++ [Sleep])))
          <= total_backoff tr + 32 * Z.of_nat (List.length (row :: rest)))%Z).
    { intros entry.
      destruct (IH (results ++ [entry]) (t ++ [Sleep])) as [H1 H2].
      rewrite calls_app in H1. rewrite total_backoff_app in H2.
      cbn [calls List.length] in *. unfold total_backoff at 3 in H2.
      cbn [backoffs fold_right] in H2.
      rewrite app_nil_r in H1. split; lia. }
    destruct o as [[data|]|e]; try apply Hgo.
    destruct e; try apply Hgo.
    cbn [snd List.length]. lia.
Qed.

End LoopShape.



(** X10. With a loaded cache that has one row per address, a run calls
    the provider at most six times per extracted record, sleeps at most
    once per record and pauses in the retry decorator for at most 32
    seconds per record. *)
Theorem run_cost_is_bounded :
  forall (api_key : string) (xlsx : workbook) (cache_path : cache_file)
         (gmaps_client : provider) (combined : list AddressRecord)
         (cache_df : list CacheEntry),
    api_key <> EmptyString ->
    extract xlsx = Return combined ->
    load_or_create_cache cache_path = Return cache_df ->
    NoDup (keys cache_df) ->
    List.length (calls (log (main (Some api_key) xlsx cache_path gmaps_client)))
    <= 6 * List.length combined
    /\ sleeps (log (main (Some api_key) xlsx cache_path gmaps_client))
       <= List.length combined
    /\ (total_backoff (log (main (Some api_key) xlsx cache_path gmaps_client))
        <= 32 * Z.of_nat (List.length combined))%Z.
Proof.
  intros api_key xlsx cache_path gmaps_client combined cache_df
         Hkey Hx Hload Hnd.
  destruct (prefix "AIza" api_key) eqn:Ekey.
  2:{ rewrite (main_rejected_key api_key xlsx cache_path gmaps_client Hkey Ekey).
      cbn [log calls sleeps List.length].
      change (total_backoff []) with 0%Z. lia. }
  destruct combined as [|r0 rest0] eqn:Ec.
  { unfold main, Client. destruct api_key; [congruence|]. rewrite Ekey, Hx.
    unfold total_backoff. simpl. lia. }
  rewrite <- Ec in *.
  assert (Hne : combined <> []) by (rewrite Ec; discriminate).
  clear Ec.
  destruct (fetch_loop gmaps_client (select_to_fetch (merge combined cache_df))
                       [] []) as [[ending results] tr] eqn:Eloop.
  pose proof (main_after_loading _ _ _ _ _ _ _ _ _ Ekey Hx Hne Hload Eloop)
    as Hmain.
  assert (Hlog : log (main (Some api_key) xlsx cache_path gmaps_client) = tr)
    by (rewrite Hmain; now destruct ending).
  rewrite Hlog.
  assert (Hfetch : List.length (select_to_fetch (merge combined cache_df))
                   <= List.length combined).
  { unfold select_to_fetch.
    pose proof (f_equal (@List.length AddressRecord)
                  (merge_one_row_per_record combined cache_df Hnd)) as Hl.
    rewrite length_map in Hl.
    etransitivity; [apply filter_length_le|].
    apply Nat.eq_le_incl. exact Hl. }
  destruct (fetch_loop_cost gmaps_client
              (select_to_fetch (merge combined cache_df)) [] []) as [Hc Hb].
  rewrite Eloop in Hc, Hb. cbn [snd] in Hc, Hb.
  destruct (fetch_loop_shape gmaps_client _ _ _ _ _ _ Eloop)
    as (processed & remaining & new & Hsplit & _ & _ & _ & Hsl & _ & _).
  assert (List.length processed
          <= List.length (select_to_fetch (merge combined cache_df))).
  { rewrite Hsplit, length_app. lia. }
  change (List.length (calls [])) with 0 in Hc.
  change (total_backoff []) with 0%Z in Hb.
  change (sleeps []) with 0 in Hsl.
  split; [lia|]. split; lia.
Qed.

Lemma run_cost_is_bounded_witness :
  "AIza-key" <> EmptyString
  /\ extract Sample.book = Return [Sample.rec_dresden; Sample.rec_wien]
  /\ load_or_create_cache None = Return []
  /\ NoDup (keys [])
  /\ List.length (calls (log (main (Some "AIza-key") Sample.book None Sample.gm_quota)))
     <= 6 * List.length [Sample.rec_dresden; Sample.rec_wien].
Proof.
  split; [discriminate|]. split; [reflexivity|]. split; [reflexivity|].
  split; [constructor|].
  exact (proj1 (run_cost_is_bounded "AIza-key" Sample.book None Sample.gm_quota
                  [Sample.rec_dresden; Sample.rec_wien] []
                  ltac:(discriminate) eq_refl eq_refl (NoDup_nil string))).
Defined.

(** ** Runs on a cache that already has the answers *)

Section Hits.

Variable combined : list AddressRecord.
Variable cache_df : list CacheEntry.

(** A record with a cache row, all of whose rows have a latitude, is no
    miss. *)
Lemma resolved_is_no_miss (r : AddressRecord) :
  (exists e, In e cache_df
             /\ Entry.address_for_geocoding e = Addr.address_for_geocoding r) ->
  (forall e, In e cache_df ->
             Entry.address_for_geocoding e = Addr.address_for_geocoding r ->
             Entry.latitude e <> None) ->
  ~ is_miss cache_df (Addr.address_for_geocoding r).
Proof.
  intros [e [He Hk]] Hall [Hnone|[e' [He' [Hk' Hlat]]]].
  - exact (Hnone e He Hk).
  - exact (Hall e' He' Hk' Hlat).
Qed.

Lemma nothing_to_fetch :
  (forall r, In r combined -> ~ is_miss cache_df (Addr.address_for_geocoding r)) ->
  select_to_fetch (merge combined cache_df) = [].
Proof.
  intros Hhit.
  destruct (select_to_fetch (merge combined cache_df)) as [|m ms] eqn:E;
    [reflexivity|].
  assert (Hin : In (Addr.address_for_geocoding (fst m))
                   (map (fun m => Addr.address_for_geocoding (fst m))
                        (select_to_fetch (merge combined cache_df)))).
  { rewrite E. now left. }
  apply in_to_fetch in Hin. destruct Hin as [[r [Hr Ha]] Hmiss].
  exfalso. apply (Hhit r Hr). now rewrite Ha.
Qed.

(** A run without a miss. *)
Lemma run_without_misses (api_key : string) (xlsx : workbook)
  (cache_path : cache_file) (gmaps_client : provider) :
  prefix "AIza" api_key = true ->
  extract xlsx = Return combined ->
  combined <> [] ->
  load_or_create_cache cache_path = Return cache_df ->
  (forall r, In r combined -> ~ is_miss cache_df (Addr.address_for_geocoding r)) ->
  main (Some api_key) xlsx cache_path gmaps_client
  = mkRun (Exit 0) cache_path
          (Some (filter (has_country "Germany") (merge combined cache_df),
                 filter (has_country "Austria") (merge combined cache_df)))
          [].
Proof.
  intros Hkey Hx Hne Hload Hhit.
  assert (Hloop : fetch_loop gmaps_client
                    (select_to_fetch (merge combined cache_df)) [] []
                  = (Exhausted, [], [])).
  { now rewrite (nothing_to_fetch Hhit). }
  now rewrite (main_after_loading _ _ _ _ _ _ _ _ _ Hkey Hx Hne Hload Hloop).
Qed.

End Hits.

(** X11. In a run with a key the client accepts, when every extracted
    record has a row in the loaded cache and every cache row of its
    address has a latitude, the run calls the
    provider for nothing, does not sleep, leaves the cache file as it
    was, writes the join of the records with the loaded cache and exits
    with code 0. *)
Theorem fully_cached_run_is_silent :
  forall (api_key : string) (xlsx : workbook) (cache_path : cache_file)
         (gmaps_client : provider) (combined : list AddressRecord)
         (cache_df : list CacheEntry),
    prefix "AIza" api_key = true ->
    extract xlsx = Return combined ->
    combined <> [] ->
    load_or_create_cache cache_path = Return cache_df ->
    (forall r, In r combined ->
       (exists e, In e cache_df
                  /\ Entry.address_for_geocoding e = Addr.address_for_geocoding r)
       /\ (forall e, In e cache_df ->
                     Entry.address_for_geocoding e = Addr.address_for_geocoding r ->
                     Entry.latitude e <> None)) ->
    main (Some api_key) xlsx cache_path gmaps_client
    = mkRun (Exit 0) cache_path
            (Some (filter (has_country "Germany") (merge combined cache_df),
                   filter (has_country "Austria") (merge combined cache_df)))
            [].
Proof.
  intros api_key xlsx cache_path gmaps_client combined cache_df
         Hkey Hx Hne Hload Hres.
  apply run_without_misses; trivial.
  intros r Hr. destruct (Hres r Hr) as [Hex Hall].
  now apply resolved_is_no_miss.
Qed.

Lemma fully_cached_run_is_silent_witness :
  prefix "AIza" "AIza-key" = true
  /\ extract Sample.book = Return [Sample.rec_dresden; Sample.rec_wien]
  /\ [Sample.rec_dresden; Sample.rec_wien] <> []
  /\ load_or_create_cache
       (Some (Return [Sample.entry_dresden_ok; Sample.entry_wien_ok]))
     = Return [Sample.entry_dresden_ok; Sample.entry_wien_ok]
  /\ main (Some "AIza-key") Sample.book
          (Some (Return [Sample.entry_dresden_ok; Sample.entry_wien_ok]))
          Sample.gm_quota
     = mkRun (Exit 0)
             (Some (Return [Sample.entry_dresden_ok; Sample.entry_wien_ok]))
             (Some (filter (has_country "Germany")
                           (merge [Sample.rec_dresden; Sample.rec_wien]
                                  [Sample.entry_dresden_ok; Sample.entry_wien_ok]),
                    filter (has_country "Austria")
                           (merge [Sample.rec_dresden; Sample.rec_wien]
                                  [Sample.entry_dresden_ok; Sample.entry_wien_ok])))
             [].
Proof.
  split; [reflexivity|]. split; [reflexivity|]. split; [discriminate|].
  split; [reflexivity|].
  apply (fully_cached_run_is_silent "AIza-key" Sample.book
           (Some (Return [Sample.entry_dresden_ok; Sample.entry_wien_ok]))
           Sample.gm_quota [Sample.rec_dresden; Sample.rec_wien]
           [Sample.entry_dresden_ok; Sample.entry_wien_ok]);
    [reflexivity | reflexivity | discriminate | reflexivity |].
  intros r [<-|[<-|[]]].
  - split.
    + exists Sample.entry_dresden_ok. split; [now left | reflexivity].
    + intros e [<-|[<-|[]]] Hk; [discriminate | discriminate Hk].
  - split.
    + exists Sample.entry_wien_ok. split; [right; now left | reflexivity].
    + intros e [<-|[<-|[]]] Hk; [discriminate Hk | discriminate].
Defined.

(** ** What a run does to the cache file *)

Section Progress.

Variable gmaps_client : provider.
Variable combined : list AddressRecord.
Variable cache_df : list CacheEntry.

(** The addresses of the accumulated entries are addresses of misses. *)
Lemma accumulated_are_misses (ending : loop_end) (results : list CacheEntry)
  (tr : trace) :
  fetch_loop gmaps_client (select_to_fetch (merge combined cache_df)) [] []
  = (ending, results, tr) ->
  forall e, In e results ->
            is_miss cache_df (Entry.address_for_geocoding e).
Proof.
  intros Hloop e He.
  destruct (fetch_loop_shape gmaps_client _ _ _ _ _ _ Hloop)
    as (processed & remaining & new & Hsplit & Hres & Hkeys & _).
  simpl in Hres. subst new.
  assert (Hk : In (Entry.address_for_geocoding e) (keys results))
    by (unfold keys; now apply in_map).
  rewrite Hkeys in Hk.
  assert (Hin : In (Entry.address_for_geocoding e)
                   (map (fun m => Addr.address_for_geocoding (fst m))
                        (select_to_fetch (merge combined cache_df)))).
  { rewrite Hsplit, map_app. apply in_or_app. now left. }
  now apply in_to_fetch in Hin.
Qed.

(** When the loop runs out of rows, every miss has an accumulated entry. *)
Lemma misses_are_accumulated (results : list CacheEntry) (tr : trace)
  (r : AddressRecord) :
  fetch_loop gmaps_client (select_to_fetch (merge combined cache_df)) [] []
  = (Exhausted, results, tr) ->
  In r combined ->
  is_miss cache_df (Addr.address_for_geocoding r) ->
  exists e, In e results
            /\ Entry.address_for_geocoding e = Addr.address_for_geocoding r.
Proof.
  intros Hloop Hr Hmiss.
  destruct (fetch_loop_shape gmaps_client _ _ _ _ _ _ Hloop)
    as (processed & remaining & new & Hsplit & Hres & Hkeys & _ & _ & Hend & _).
  simpl in Hres. subst new. rewrite (Hend eq_refl), app_nil_r in Hsplit.
  assert (Hin : In (Addr.address_for_geocoding r) (keys results)).
  { rewrite Hkeys, <- Hsplit. apply in_to_fetch. split; [|exact Hmiss].
    now exists r. }
  unfold keys in Hin. apply in_map_iff in Hin.
  destruct Hin as [e [Hk He]]. now exists e.
Qed.

End Progress.

(** X12. A run never loses a resolved cache row: when the cache file
    holds a frame with one row per address, every row of it that has a
    latitude is still in the file after the run, whatever the key, the
    workbook and the provider are and however the run ends. *)
Theorem run_keeps_resolved_entries :
  forall (api_key : option string) (xlsx : workbook)
         (gmaps_client : provider) (cache_df : list CacheEntry)
         (e : CacheEntry) (c : coord),
    NoDup (keys cache_df) ->
    In e cache_df ->
    Entry.latitude e = Some c ->
    exists saved,
      cache_after (main api_key xlsx (Some (Return cache_df)) gmaps_client)
      = Some (Return saved)
      /\ In e saved.
Proof.
  intros api_key xlsx gmaps_client cache_df e c Hnd He Hlat.
  assert (Hsame : forall st w tr,
            exists saved,
              cache_after (mkRun st (Some (Return cache_df)) w tr)
              = Some (Return saved) /\ In e saved)
    by (intros; now exists cache_df).
  destruct api_key as [key|]; [|apply Hsame].
  destruct (String.string_dec key EmptyString) as [->|Hkey]; [apply Hsame|].
  destruct (prefix "AIza" key) eqn:Ekey.
  2:{ rewrite (main_rejected_key key xlsx _ gmaps_client Hkey Ekey).
      apply Hsame. }
  destruct (extract xlsx) as [combined|ex] eqn:Hx.
  2:{ unfold main, Client. destruct key; [congruence|]. rewrite Ekey, Hx.
      apply Hsame. }
  destruct combined as [|r0 rest0] eqn:Ec.
  { unfold main, Client. destruct key; [congruence|]. rewrite Ekey, Hx.
    apply Hsame. }
  rewrite <- Ec in *.
  assert (Hne : combined <> []) by (rewrite Ec; discriminate).
  clear Ec.
  destruct (fetch_loop gmaps_client (select_to_fetch (merge combined cache_df))
                       [] []) as [[ending results] tr] eqn:Eloop.
  rewrite (main_after_loading key xlsx (Some (Return cache_df)) gmaps_client
             combined cache_df ending results tr Ekey Hx Hne eq_refl Eloop).
  assert (Hfile : exists saved,
            snd (flush cache_df results (Some (Return cache_df)))
            = Some (Return saved) /\ In e saved).
  { unfold flush, save_cache. destruct results as [|e0 results']; cbn [snd].
    - now exists cache_df.
    - eexists. split; [reflexivity|].
      destruct (in_split e cache_df He) as [front [back Hsplit]].
      rewrite Hsplit, <- app_assoc, <- app_comm_cons.
      apply drop_duplicates_last_keeps_last.
      intros e' He' Hk. apply in_app_or in He'. destruct He' as [Hb|Hr].
      + assert (e' = e).
        { apply (nodup_keys_same_row cache_df); trivial.
          rewrite Hsplit. apply in_or_app. right. now right. }
        subst e'. rewrite Hsplit in Hnd. unfold keys in Hnd.
        rewrite map_app in Hnd. cbn [map] in Hnd.
        apply NoDup_remove_2 in Hnd. apply Hnd.
        apply in_or_app. right. now apply in_map.
      + pose proof (accumulated_are_misses gmaps_client combined cache_df
                      ending (e0 :: results') tr Eloop e' Hr) as Hmiss.
        rewrite Hk in Hmiss.
        pose proof (is_miss_no_resolved_entry cache_df _ Hnd Hmiss e He eq_refl).
        congruence. }
  destruct ending; exact Hfile.
Qed.

Lemma run_keeps_resolved_entries_witness :
  NoDup (keys [Sample.entry_dresden_ok])
  /\ In Sample.entry_dresden_ok [Sample.entry_dresden_ok]
  /\ Entry.latitude Sample.entry_dresden_ok = Some (51.05)%Q
  /\ exists saved,
       cache_after (main (Some "AIza-key") Sample.book
                         (Some (Return [Sample.entry_dresden_ok]))
                         Sample.gm_timeout)
       = Some (Return saved)
       /\ In Sample.entry_dresden_ok saved.
Proof.
  assert (Hnd : NoDup (keys [Sample.entry_dresden_ok])).
  { simpl. constructor; [intros [] | constructor]. }
  split; [exact Hnd|]. split; [now left|]. split; [reflexivity|].
  exact (run_keeps_resolved_entries (Some "AIza-key") Sample.book Sample.gm_timeout
           [Sample.entry_dresden_ok] Sample.entry_dresden_ok (51.05)%Q
           Hnd (or_introl eq_refl) eq_refl).
Defined.

(** ** The output of a completed run *)

(** Every extracted record is German or Austrian. *)
Lemma extracted_country (xlsx : workbook) (combined : list AddressRecord) :
  extract xlsx = Return combined ->
  forall r, In r combined ->
            Addr.Country r = "Germany" \/ Addr.Country r = "Austria".
Proof.
  unfold extract. intros Hx r Hr.
  destruct (parse_sheet xlsx "dm DE" "Germany") as [de|e] eqn:Hde;
    [|discriminate Hx].
  destruct (parse_sheet xlsx "dm AT" "Austria") as [at_|e] eqn:Hat;
    [|discriminate Hx].
  cbn [bind] in Hx. injection Hx as <-.
  assert (Hlabel : forall sheet label recs,
            parse_sheet xlsx sheet label = Return recs ->
            In r recs -> Addr.Country r = label).
  { intros sheet label recs Hp Hin.
    destruct (parse_sheet_returns _ _ _ _ Hp) as [df [_ [_ ->]]].
    apply in_row_records in Hin. destruct Hin as [row [_ Hrow]].
    destruct (parse_row_some _ _ _ Hrow)
      as (first & street & c4 & c5 & _ & _ & _ & _ & _ & _ & _ & _ & ->).
    reflexivity. }
  apply in_app_or in Hr. destruct Hr as [Hr|Hr].
  - left. exact (Hlabel _ _ _ Hde Hr).
  - right. exact (Hlabel _ _ _ Hat Hr).
Qed.

Lemma flush_frame (cache_df results : list CacheEntry) (cache_path : cache_file) :
  fst (flush cache_df results cache_path) = cache_df ++ results.
Proof.
  unfold flush. destruct results; cbn [fst]; [now rewrite app_nil_r | reflexivity].
Qed.

(** X13. In a run that ends with code 0, the first output sheet holds
    rows of German records only and the second rows of Austrian records
    only; every extracted record has a row in one of them; and every row
    carries a cache entry for its record's address: no row is left
    without a lookup status. *)
Theorem completed_run_output :
  forall (api_key : string) (xlsx : workbook) (cache_path : cache_file)
         (gmaps_client : provider) (combined : list AddressRecord)
         (cache_df : list CacheEntry),
    api_key <> EmptyString ->
    extract xlsx = Return combined ->
    load_or_create_cache cache_path = Return cache_df ->
    status (main (Some api_key) xlsx cache_path gmaps_client) = Exit 0 ->
    exists de_rows at_rows,
      written (main (Some api_key) xlsx cache_path gmaps_client)
      = Some (de_rows, at_rows)
      /\ (forall m, In m de_rows -> Addr.Country (fst m) = "Germany")
      /\ (forall m, In m at_rows -> Addr.Country (fst m) = "Austria")
      /\ (forall r, In r combined ->
            exists e, In (r, Some e) (de_rows ++ at_rows)
                      /\ Entry.address_for_geocoding e
                         = Addr.address_for_geocoding r)
      /\ (forall m, In m (de_rows ++ at_rows) ->
            In (fst m) combined
            /\ exists e, snd m = Some e
                         /\ Entry.address_for_geocoding e
                            = Addr.address_for_geocoding (fst m)).
Proof.
  intros api_key xlsx cache_path gmaps_client combined cache_df
         Hkey Hx Hload Hst.
  pose proof (completed_run_key _ _ _ _ Hst) as Ekey.
  assert (Hne : combined <> []).
  { intros ->. unfold main, Client in Hst. destruct api_key; [congruence|].
    rewrite Ekey, Hx in Hst. discriminate Hst. }
  destruct (fetch_loop gmaps_client (select_to_fetch (merge combined cache_df))
                       [] []) as [[ending results] tr] eqn:Eloop.
  pose proof (main_after_loading _ _ _ _ _ _ _ _ _ Ekey Hx Hne Hload Eloop)
    as Hmain.
  rewrite Hmain in Hst |- *.
  destruct ending; [|discriminate Hst]. cbn [written].
  rewrite flush_frame.
  set (frame := cache_df ++ results).
  assert (Hentry : forall r, In r combined ->
            exists e, In e frame
                      /\ Entry.address_for_geocoding e
                         = Addr.address_for_geocoding r).
  { intros r Hr.
    destruct (existsb (fun e => String.eqb (Entry.address_for_geocoding e)
                                           (Addr.address_for_geocoding r))
                      cache_df) eqn:E.
    - apply existsb_exists in E. destruct E as [e [He Hk]].
      apply String.eqb_eq in Hk. exists e.
      split; [apply in_or_app; now left | exact Hk].
    - assert (Hmiss : is_miss cache_df (Addr.address_for_geocoding r)).
      { left. intros e He Hk.
        assert (existsb (fun e => String.eqb (Entry.address_for_geocoding e)
                                             (Addr.address_for_geocoding r))
                        cache_df = true).
        { apply existsb_exists. exists e. split; [exact He|].
          now apply String.eqb_eq. }
        congruence. }
      destruct (misses_are_accumulated gmaps_client combined cache_df
                  results tr r Eloop Hr Hmiss) as [e [He Hk]].
      exists e. split; [apply in_or_app; now right | exact Hk]. }
  assert (Hrows : forall m, In m (merge combined frame) ->
            In (fst m) combined
            /\ exists e, snd m = Some e
                         /\ Entry.address_for_geocoding e
                            = Addr.address_for_geocoding (fst m)).
  { intros [r o] Hm. apply in_merge in Hm. destruct Hm as [Hr Ho].
    split; [exact Hr|]. destruct o as [e|].
    - exists e. split; [reflexivity | tauto].
    - exfalso. destruct (Hentry r Hr) as [e [He Hk]]. exact (Ho e He Hk). }
  eexists. eexists. split; [reflexivity|].
  split; [|split; [|split]].
  - intros m Hm. apply filter_In in Hm. destruct Hm as [_ Hc].
    now apply String.eqb_eq in Hc.
  - intros m Hm. apply filter_In in Hm. destruct Hm as [_ Hc].
    now apply String.eqb_eq in Hc.
  - intros r Hr. destruct (Hentry r Hr) as [e [He Hk]]. exists e.
    split; [|exact Hk].
    assert (Hm : In (r, Some e) (merge combined frame))
      by (apply in_merge; now split).
    apply in_or_app.
    destruct (extracted_country xlsx combined Hx r Hr) as [Hc|Hc];
      [left | right]; apply filter_In; (split; [exact Hm|]);
      unfold has_country; cbn [fst]; rewrite Hc; reflexivity.
  - intros m Hm. apply Hrows. apply in_app_or in Hm.
    destruct Hm as [Hm|Hm]; apply filter_In in Hm; tauto.
Qed.

Lemma completed_run_output_witness :
  "AIza-key" <> EmptyString
  /\ extract Sample.book = Return [Sample.rec_dresden; Sample.rec_wien]
  /\ load_or_create_cache None = Return []
  /\ status (main (Some "AIza-key") Sample.book None Sample.gm_found) = Exit 0
  /\ exists de_rows at_rows,
       written (main (Some "AIza-key") Sample.book None Sample.gm_found)
       = Some (de_rows, at_rows)
       /\ (forall m, In m de_rows -> Addr.Country (fst m) = "Germany")
       /\ (forall m, In m at_rows -> Addr.Country (fst m) = "Austria")
       /\ (forall r, In r [Sample.rec_dresden; Sample.rec_wien] ->
             exists e, In (r, Some e) (de_rows ++ at_rows)
                       /\ Entry.address_for_geocoding e
                          = Addr.address_for_geocoding r)
       /\ (forall m, In m (de_rows ++ at_rows) ->
             In (fst m) [Sample.rec_dresden; Sample.rec_wien]
             /\ exists e, snd m = Some e
                          /\ Entry.address_for_geocoding e
                             = Addr.address_for_geocoding (fst m)).
Proof.
  split; [discriminate|]. split; [reflexivity|]. split; [reflexivity|].
  split; [reflexivity|].
  exact (completed_run_output "AIza-key" Sample.book None Sample.gm_found
           [Sample.rec_dresden; Sample.rec_wien] []
           ltac:(discriminate) eq_refl eq_refl eq_refl).
Defined.

(** ** Running again on the saved cache *)

Section Rerun.

Variable gmaps_client : provider.
Hypothesis Hresolves : resolves_everything gmaps_client.

Lemma geocode_one_resolving (address : string) (tr : trace) :
  exists data c,
    geocode_one gmaps_client address tr
    = (Return (Some data), tr ++ [Geocode address])
    /\ Geo.latitude data = Some c.
Proof.
  destruct (Hresolves (calls tr) address)
    as (best & others & g & loc & c & Hr & Hg & Hl & Hlat).
  exists (Geo.mk (lat loc) (lng loc) (place_place_id best)
                 (place_formatted_address best)), c.
  split; [|exact Hlat].
  apply geocode_one_first_attempt; [|discriminate].
  unfold geocode_one_body. now rewrite Hr, Hg, Hl.
Qed.

(** With such a provider the loop gets through every row and every
    accumulated entry has a latitude. *)
Lemma fetch_loop_resolving (to_fetch : list merged_row) :
  forall results tr,
  exists new tr',
    fetch_loop gmaps_client to_fetch results tr = (Exhausted, results ++ new, tr')
    /\ Forall (fun e => Entry.latitude e <> None) new.
Proof.
  induction to_fetch as [|row rest IH]; intros results tr.
  - exists [], tr. rewrite app_nil_r. split; [reflexivity | constructor].
  - cbn [fetch_loop].
    destruct (geocode_one_resolving (Addr.address_for_geocoding (fst row)) tr)
      as [data [c [Hg Hlat]]].
    rewrite Hg.
    destruct (IH (results ++ [ok_entry (Addr.address_for_geocoding (fst row)) data])
                 ((tr ++ [Geocode (Addr.address_for_geocoding (fst row))])
                    ++ [Sleep])) as [new [tr' [Hloop Hall]]].
    exists (ok_entry (Addr.address_for_geocoding (fst row)) data :: new), tr'.
    split.
    + rewrite Hloop. now rewrite <- app_assoc.
    + constructor; [|exact Hall]. cbn. rewrite Hlat. discriminate.
Qed.

End Rerun.

(** Where the rows after a row are, when the row is in the first part of
    a frame. *)
Lemma rows_after (l1 l2 front back : list CacheEntry) (e : CacheEntry) :
  l1 ++ l2 = front ++ e :: back ->
  ~ In e l2 ->
  forall x, In x l2 -> In x back.
Proof.
  revert front. induction l1 as [|a l1 IH]; intros front Heq Hnot x Hx.
  - exfalso. apply Hnot. change ([] ++ l2) with l2 in Heq. rewrite Heq.
    apply in_or_app. right. now left.
  - destruct front as [|f front].
    + injection Heq as _ Heq. rewrite <- Heq. apply in_or_app. now right.
    + injection Heq as _ Heq. exact (IH front Heq Hnot x Hx).
Qed.

(** X14. With a key the client accepts: after a run with a provider
    that finds a latitude for every address, a second run on the same workbook and on the cache file the
    first run left behind, with any provider, calls the provider for
    nothing, does not sleep, leaves the cache file unchanged and exits
    with code 0; the first run exits with code 0 too. *)
Theorem second_run_is_silent :
  forall (api_key : string) (xlsx : workbook) (cache_path : cache_file)
         (gmaps_client gmaps_client' : provider)
         (combined : list AddressRecord) (cache_df : list CacheEntry),
    prefix "AIza" api_key = true ->
    extract xlsx = Return combined ->
    combined <> [] ->
    load_or_create_cache cache_path = Return cache_df ->
    resolves_everything gmaps_client ->
    status (main (Some api_key) xlsx cache_path gmaps_client) = Exit 0
    /\ exists sheets,
         main (Some api_key) xlsx
              (cache_after (main (Some api_key) xlsx cache_path gmaps_client))
              gmaps_client'
         = mkRun (Exit 0)
                 (cache_after (main (Some api_key) xlsx cache_path gmaps_client))
                 (Some sheets) [].
Proof.
  intros api_key xlsx cache_path gmaps_client gmaps_client' combined cache_df
         Hkey Hx Hne Hload Hres.
  destruct (fetch_loop_resolving gmaps_client Hres
              (select_to_fetch (merge combined cache_df)) [] [])
    as [new [tr [Hloop Hall]]].
  change ([] ++ new) with new in Hloop.
  rewrite (main_after_loading _ _ _ _ _ _ _ _ _ Hkey Hx Hne Hload Hloop).
  cbn [status cache_after]. split; [reflexivity|].
  assert (Hentry : forall r, In r combined ->
            exists e, In e (cache_df ++ new)
                      /\ Entry.address_for_geocoding e
                         = Addr.address_for_geocoding r).
  { intros r Hr.
    destruct (existsb (fun e => String.eqb (Entry.address_for_geocoding e)
                                           (Addr.address_for_geocoding r))
                      cache_df) eqn:E.
    - apply existsb_exists in E. destruct E as [e [He Hk]].
      apply String.eqb_eq in Hk. exists e.
      split; [apply in_or_app; now left | exact Hk].
    - assert (Hmiss : is_miss cache_df (Addr.address_for_geocoding r)).
      { left. intros e He Hk.
        assert (existsb (fun e => String.eqb (Entry.address_for_geocoding e)
                                             (Addr.address_for_geocoding r))
                        cache_df = true).
        { apply existsb_exists. exists e. split; [exact He|].
          now apply String.eqb_eq. }
        congruence. }
      destruct (misses_are_accumulated gmaps_client combined cache_df
                  new tr r Hloop Hr Hmiss) as [e [He Hk]].
      exists e. split; [apply in_or_app; now right | exact Hk]. }
  unfold flush, save_cache. destruct new as [|e0 new'] eqn:Enew; cbn [snd].
  - eexists. apply (run_without_misses combined cache_df); trivial.
    intros r Hr Hmiss.
    destruct (misses_are_accumulated gmaps_client combined cache_df
                [] tr r Hloop Hr Hmiss) as [e [[] _]].
  - rewrite <- Enew in *. clear Enew.
    eexists.
    apply (run_without_misses combined
             (drop_duplicates_last (cache_df ++ new))); trivial.
    intros r Hr [Hnone|[e [He [Hk Hlat]]]].
    + destruct (Hentry r Hr) as [e [He Hk]].
      destruct (drop_duplicates_last_key _ e He) as [e' [He' Hk']].
      apply (Hnone e' He'). congruence.
    + assert (Hnot : ~ In e new).
      { intros Hin. rewrite Forall_forall in Hall. exact (Hall e Hin Hlat). }
      destruct (drop_duplicates_last_is_last _ e He)
        as [front [back [Hsplit Hlast]]].
      assert (Hold : In e cache_df).
      { apply drop_duplicates_last_in in He. apply in_app_or in He. tauto. }
      assert (Hmiss : is_miss cache_df (Addr.address_for_geocoding r)).
      { right. now exists e. }
      destruct (misses_are_accumulated gmaps_client combined cache_df
                  new tr r Hloop Hr Hmiss) as [e' [He' Hk']].
      apply (Hlast e'); [|congruence].
      exact (rows_after cache_df new front back e Hsplit Hnot e' He').
Qed.

Lemma second_run_is_silent_witness :
  prefix "AIza" "AIza-key" = true
  /\ extract Sample.book = Return [Sample.rec_dresden; Sample.rec_wien]
  /\ [Sample.rec_dresden; Sample.rec_wien] <> []
  /\ load_or_create_cache Sample.cache_not_found
     = Return [Sample.entry_dresden_not_found]
  /\ resolves_everything Sample.gm_found
  /\ status (main (Some "AIza-key") Sample.book Sample.cache_not_found Sample.gm_found)
     = Exit 0.
Proof.
  assert (Hres : resolves_everything Sample.gm_found).
  { intros history address.
    exists Sample.place_dresden, [],
      (mkGeometry (Some (mkLocation (Some 51.05%Q) (Some 13.74%Q)))),
      (mkLocation (Some 51.05%Q) (Some 13.74%Q)), (51.05)%Q.
    repeat split. }
  split; [reflexivity|]. split; [reflexivity|]. split; [discriminate|].
  split; [reflexivity|]. split; [exact Hres|].
  exact (proj1 (second_run_is_silent "AIza-key" Sample.book Sample.cache_not_found
                  Sample.gm_found Sample.gm_quota
                  [Sample.rec_dresden; Sample.rec_wien]
                  [Sample.entry_dresden_not_found]
                  eq_refl eq_refl ltac:(discriminate) eq_refl Hres)).
Defined.

(** ** Results the script cannot read *)

(** X15. A first result without a "geometry", or whose geometry has no
    "location", does not stop the batch: the [KeyError] is caught in the
    loop, which appends an entry with null coordinates whose status is
    "ERROR: 'geometry'" or "ERROR: 'location'" and goes on with the next
    row after one provider call.  A first result whose location has no
    "lat" is stored with status "OK" and a null latitude, and the address
    of such an entry is a miss for the cache frame that holds it. *)
Theorem unreadable_result_is_recorded :
  forall (gmaps_client : provider) (row : merged_row) (rest : list merged_row)
         (results : list CacheEntry) (tr : trace)
         (best : place) (others : list place),
    gmaps_client (calls tr) (Addr.address_for_geocoding (fst row))
    = Results (best :: others) ->
    (place_geometry best = None ->
     fetch_loop gmaps_client (row :: rest) results tr
     = fetch_loop gmaps_client rest
         (results ++ [Entry.mk (Addr.address_for_geocoding (fst row))
                               None None None "ERROR: 'geometry'"])
         (tr ++ [Geocode (Addr.address_for_geocoding (fst row)); Sleep]))
    /\ (forall g,
          place_geometry best = Some g ->
          geometry_location g = None ->
          fetch_loop gmaps_client (row :: rest) results tr
          = fetch_loop gmaps_client rest
              (results ++ [Entry.mk (Addr.address_for_geocoding (fst row))
                                    None None None "ERROR: 'location'"])
              (tr ++ [Geocode (Addr.address_for_geocoding (fst row)); Sleep]))
    /\ (forall g loc,
          place_geometry best = Some g ->
          geometry_location g = Some loc ->
          lat loc = None ->
          fetch_loop gmaps_client (row :: rest) results tr
          = fetch_loop gmaps_client rest
              (results ++ [Entry.mk (Addr.address_for_geocoding (fst row))
                                    None (lng loc) (place_place_id best) "OK"])
              (tr ++ [Geocode (Addr.address_for_geocoding (fst row)); Sleep])
          /\ forall cache_df,
               In (Entry.mk (Addr.address_for_geocoding (fst row))
                            None (lng loc) (place_place_id best) "OK") cache_df ->
               is_miss cache_df (Addr.address_for_geocoding (fst row))).
Proof.
  intros gmaps_client row rest results tr best others Hr.
  assert (Hstep : forall o,
            fst (geocode_one_body gmaps_client
                   (Addr.address_for_geocoding (fst row)) tr) = o ->
            (forall m, o <> Raise (RateLimitError m)) ->
            geocode_one gmaps_client (Addr.address_for_geocoding (fst row)) tr
            = (o, tr ++ [Geocode (Addr.address_for_geocoding (fst row))]))
    by (intros o; apply geocode_one_first_attempt).
  split; [|split].
  - intros Hg. cbn [fetch_loop].
    rewrite (Hstep (Raise (KeyError "'geometry'"))); [|
      unfold geocode_one_body; now rewrite Hr, Hg | discriminate].
    now rewrite <- app_assoc.
  - intros g Hg Hl. cbn [fetch_loop].
    rewrite (Hstep (Raise (KeyError "'location'"))); [|
      unfold geocode_one_body; now rewrite Hr, Hg, Hl | discriminate].
    now rewrite <- app_assoc.
  - intros g loc Hg Hl Hlat. split.
    + cbn [fetch_loop].
      rewrite (Hstep (Return (Some (Geo.mk (lat loc) (lng loc)
                                           (place_place_id best)
                                           (place_formatted_address best)))));
        [| unfold geocode_one_body; now rewrite Hr, Hg, Hl | discriminate].
      unfold ok_entry. cbn. rewrite Hlat. now rewrite <- app_assoc.
    + intros cache_df Hin. right. eexists. split; [exact Hin|]. now split.
Qed.

Lemma unreadable_result_is_recorded_witness :
  (fun _ _ => Results [mkPlace None None None])
    (calls []) (Addr.address_for_geocoding (fst (Sample.rec_wien, @None CacheEntry)))
  = Results (mkPlace None None None :: [])
  /\ (place_geometry (mkPlace None None None) = None ->
      fetch_loop (fun _ _ => Results [mkPlace None None None])
                 ((Sample.rec_wien, None) :: []) [] []
      = fetch_loop (fun _ _ => Results [mkPlace None None None]) []
          ([] ++ [Entry.mk (Addr.address_for_geocoding
                              (fst (Sample.rec_wien, @None CacheEntry)))
                           None None None "ERROR: 'geometry'"])
          ([] ++ [Geocode (Addr.address_for_geocoding
                             (fst (Sample.rec_wien, @None CacheEntry))); Sleep])).
Proof.
  split; [reflexivity|].
  exact (proj1 (unreadable_result_is_recorded
                  (fun _ _ => Results [mkPlace None None None])
                  (Sample.rec_wien, None) [] [] []
                  (mkPlace None None None) [] eq_refl)).
Defined.

(** ** Postal code and city *)

Lemma split_hd_no_sep (sep : ascii) (s : string) :
  ~ PyStr.has_char sep (hd EmptyString (PyStr.split sep s)).
Proof.
  induction s as [|c t IH]; [simpl; tauto|].
  cbn [PyStr.split]. destruct (Ascii.eqb c sep) eqn:E; [simpl; tauto|].
  destruct (PyStr.split sep t) as [|h r] eqn:Es.
  - exfalso. now apply (split_nonempty sep t).
  - cbn [hd] in *. cbn [PyStr.has_char]. intros [Hc|Hh]; [|exact (IH Hh)].
    subst c. now rewrite Ascii.eqb_refl in E.
Qed.

Lemma split_hd_prefix (sep : ascii) (s : string) :
  prefix (hd EmptyString (PyStr.split sep s)) s = true.
Proof.
  induction s as [|c t IH]; [reflexivity|].
  cbn [PyStr.split]. destruct (Ascii.eqb c sep) eqn:E; [reflexivity|].
  destruct (PyStr.split sep t) as [|h r] eqn:Es.
  - exfalso. now apply (split_nonempty sep t).
  - cbn [hd] in *. cbn [prefix].
    destruct (Ascii.ascii_dec c c); [exact IH | congruence].
Qed.

(** X16. The postal code of every extracted record has no point in it
    and is the beginning of the text of its cell, up to the first point;
    the city is the text of its cell, unchanged and unstripped; each is
    the empty string when its cell is empty. *)
Theorem extracted_postal_code_and_city :
  forall (xlsx : workbook) (sheet_name country_label : string)
         (recs : list AddressRecord) (rec : AddressRecord),
    parse_sheet xlsx sheet_name country_label = Return recs ->
    In rec recs ->
    ~ PyStr.has_char "." (Addr.PLZ rec)
    /\ exists r c4 c5,
         parse_row country_label r = Return (Some rec)
         /\ nth_error r 4 = Some c4 /\ nth_error r 5 = Some c5
         /\ (c4 <> NaN -> prefix (Addr.PLZ rec) (py_str c4) = true)
         /\ (c4 <> NaN -> ~ PyStr.has_char "." (py_str c4) ->
             Addr.PLZ rec = py_str c4)
         /\ (c4 = NaN -> Addr.PLZ rec = EmptyString)
         /\ (c5 <> NaN -> Addr.Ort rec = py_str c5)
         /\ (c5 = NaN -> Addr.Ort rec = EmptyString).
Proof.
  intros xlsx sheet_name country_label recs rec Hp Hin.
  destruct (parse_sheet_returns _ _ _ _ Hp) as [df [_ [_ Hrecs]]].
  rewrite Hrecs in Hin. apply in_row_records in Hin.
  destruct Hin as [r [_ Hrow]].
  destruct (parse_row_some _ _ _ Hrow)
    as (first & street & c4 & c5 & _ & _ & H4 & H5 & _ & _ & _ & _ & Hrec).
  split.
  - rewrite Hrec. cbn [Addr.PLZ]. unfold plz_of.
    destruct (negb (isna c4)); [apply split_hd_no_sep | simpl; tauto].
  - exists r, c4, c5. rewrite Hrec at 2 3 4 5 6.
    cbn [Addr.PLZ Addr.Ort].
    split; [exact Hrow|]. split; [exact H4|]. split; [exact H5|].
    unfold plz_of, city_of. repeat split.
    + intros Hna. apply isna_false in Hna. rewrite Hna. cbn [negb].
      apply split_hd_prefix.
    + intros Hna Hdot. now apply plz_of_whole.
    + now intros ->.
    + intros Hna. apply isna_false in Hna. now rewrite Hna.
    + now intros ->.
Qed.

Lemma extracted_postal_code_and_city_witness :
  parse_sheet Sample.book "dm DE" "Germany" = Return [Sample.rec_dresden]
  /\ In Sample.rec_dresden [Sample.rec_dresden]
  /\ ~ PyStr.has_char "." (Addr.PLZ Sample.rec_dresden).
Proof.
  split; [reflexivity|]. split; [now left|].
  exact (proj1 (extracted_postal_code_and_city Sample.book "dm DE" "Germany"
                  [Sample.rec_dresden] Sample.rec_dresden
                  eq_refl (or_introl eq_refl))).
Defined.

(** ** When the output has one row per record *)

Section OneRow.

(** Selecting the rows to fetch keeps their addresses pairwise
    different. *)
Lemma to_fetch_addresses_distinct (merged : list merged_row) :
  NoDup (map (fun m => Addr.address_for_geocoding (fst m)) merged) ->
  NoDup (map (fun m => Addr.address_for_geocoding (fst m))
             (select_to_fetch merged)).
Proof.
  unfold select_to_fetch.
  induction merged as [|m merged IH]; intros Hdistinct; [constructor|].
  apply NoDup_cons_iff in Hdistinct. destruct Hdistinct as [Hfresh Hrest].
  cbn [filter]. destruct (is_null (merged_latitude m)).
  - cbn [map]. apply NoDup_cons_iff. split; [|exact (IH Hrest)].
    intros Hin. apply Hfresh. apply in_map_iff in Hin.
    destruct Hin as [m' [Hsame Hsel]]. apply in_map_iff. exists m'.
    split; [exact Hsame|]. apply filter_In in Hsel. exact (proj1 Hsel).
  - exact (IH Hrest).
Qed.

Lemma filter_two_countries (combined : list AddressRecord) :
  (forall r, In r combined ->
             Addr.Country r = "Germany" \/ Addr.Country r = "Austria") ->
  List.length (filter (fun r => String.eqb (Addr.Country r) "Germany") combined)
  + List.length (filter (fun r => String.eqb (Addr.Country r) "Austria") combined)
  = List.length combined.
Proof.
  induction combined as [|r combined IH]; [reflexivity|].
  intros Hc. cbn [filter].
  assert (IH' := IH (fun x Hx => Hc x (or_intror Hx))).
  destruct (Hc r (or_introl eq_refl)) as [E|E]; rewrite E;
    cbn [String.eqb Ascii.eqb Bool.eqb andb List.length]; cbn; lia.
Qed.

Lemma sheet_records (label : string) (final : list merged_row) :
  map fst (filter (has_country label) final)
  = filter (fun r => String.eqb (Addr.Country r) label) (map fst final).
Proof.
  symmetry.
  apply (filter_map_swap (fun r => String.eqb (Addr.Country r) label) fst).
Qed.

End OneRow.

(** X17. When the loaded cache has one row per address, the extracted
    records have pairwise different addresses, no cache row of an
    extracted address has a null latitude, and the run ends with code 0,
    the output has exactly one row per record: the first sheet lists the
    German records and the second the Austrian ones, each in the order
    of extraction. *)
Theorem clean_run_writes_one_row_per_record :
  forall (api_key : string) (xlsx : workbook) (cache_path : cache_file)
         (gmaps_client : provider) (combined : list AddressRecord)
         (cache_df : list CacheEntry),
    api_key <> EmptyString ->
    extract xlsx = Return combined ->
    load_or_create_cache cache_path = Return cache_df ->
    NoDup (keys cache_df) ->
    NoDup (map Addr.address_for_geocoding combined) ->
    (forall r e, In r combined -> In e cache_df ->
                 Entry.address_for_geocoding e = Addr.address_for_geocoding r ->
                 Entry.latitude e <> None) ->
    status (main (Some api_key) xlsx cache_path gmaps_client) = Exit 0 ->
    exists de_rows at_rows,
      written (main (Some api_key) xlsx cache_path gmaps_client)
      = Some (de_rows, at_rows)
      /\ map fst de_rows
         = filter (fun r => String.eqb (Addr.Country r) "Germany") combined
      /\ map fst at_rows
         = filter (fun r => String.eqb (Addr.Country r) "Austria") combined
      /\ List.length de_rows + List.length at_rows = List.length combined.
Proof.
  intros api_key xlsx cache_path gmaps_client combined cache_df
         Hkey Hx Hload Hnd Hdistinct Hresolved Hst.
  pose proof (completed_run_key _ _ _ _ Hst) as Ekey.
  assert (Hne : combined <> []).
  { intros ->. unfold main, Client in Hst. destruct api_key; [congruence|].
    rewrite Ekey, Hx in Hst. discriminate Hst. }
  destruct (fetch_loop gmaps_client (select_to_fetch (merge combined cache_df))
                       [] []) as [[ending results] tr] eqn:Eloop.
  pose proof (main_after_loading _ _ _ _ _ _ _ _ _ Ekey Hx Hne Hload Eloop)
    as Hmain.
  rewrite Hmain in Hst |- *.
  destruct ending; [|discriminate Hst]. cbn [written].
  rewrite flush_frame.
  assert (Hframe : NoDup (keys (cache_df ++ results))).
  { assert (Happ : keys (cache_df ++ results) = keys cache_df ++ keys results)
      by (unfold keys; apply map_app).
    rewrite Happ. apply NoDup_app.
    - exact Hnd.
    - destruct (fetch_loop_shape gmaps_client _ _ _ _ _ _ Eloop)
        as (processed & remaining & new & Hsplit & Hres & Hkeys & _ & _
            & Hend & _).
      simpl in Hres. subst new.
      rewrite (Hend eq_refl), app_nil_r in Hsplit. subst processed.
      rewrite Hkeys.
      apply to_fetch_addresses_distinct.
      pose proof (f_equal (map Addr.address_for_geocoding)
                    (merge_one_row_per_record combined cache_df Hnd)) as Hm.
      rewrite map_map in Hm.
      exact (eq_ind_r (fun l => NoDup l) Hdistinct Hm).
    - intros a Ha Hr. unfold keys in Ha, Hr.
      apply in_map_iff in Hr. destruct Hr as [e' [Hk' He']].
      pose proof (accumulated_are_misses gmaps_client combined cache_df
                    Exhausted results tr Eloop e' He') as Hmiss.
      rewrite Hk' in Hmiss.
      destruct Hmiss as [Hnone|[e [He [Hk Hlat]]]].
      + apply in_map_iff in Ha. destruct Ha as [e [Hk He]].
        exact (Hnone e He Hk).
      + destruct (fetch_loop_shape gmaps_client _ _ _ _ _ _ Eloop)
          as (processed & remaining & new & Hsplit & Hres & Hkeys & _).
        simpl in Hres. subst new.
        assert (Hin : In a (map (fun m => Addr.address_for_geocoding (fst m))
                                (select_to_fetch (merge combined cache_df)))).
        { assert (Hacc : In a (keys results))
            by (unfold keys; rewrite <- Hk'; now apply in_map).
          rewrite Hkeys in Hacc. apply in_map_iff in Hacc.
          destruct Hacc as [m [Hm Hp]]. apply in_map_iff. exists m.
          split; [exact Hm|]. rewrite Hsplit. apply in_or_app. now left. }
        apply in_to_fetch in Hin. destruct Hin as [[r [Hr Hra]] _].
        apply (Hresolved r e Hr He); [congruence | exact Hlat]. }
  pose proof (merge_one_row_per_record combined (cache_df ++ results) Hframe)
    as Hone.
  eexists. eexists. split; [reflexivity|].
  rewrite !sheet_records, Hone.
  split; [reflexivity|]. split; [reflexivity|].
  rewrite <- (length_map fst (filter (has_country "Germany") _)).
  rewrite <- (length_map fst (filter (has_country "Austria") _)).
  rewrite !sheet_records, Hone.
  apply filter_two_countries. now apply (extracted_country xlsx).
Qed.

Lemma clean_run_writes_one_row_per_record_witness :
  "AIza-key" <> EmptyString
  /\ extract Sample.book = Return [Sample.rec_dresden; Sample.rec_wien]
  /\ load_or_create_cache None = Return []
  /\ NoDup (keys [])
  /\ NoDup (map Addr.address_for_geocoding [Sample.rec_dresden; Sample.rec_wien])
  /\ status (main (Some "AIza-key") Sample.book None Sample.gm_found) = Exit 0
  /\ exists de_rows at_rows,
       written (main (Some "AIza-key") Sample.book None Sample.gm_found)
       = Some (de_rows, at_rows)
       /\ map fst de_rows
          = filter (fun r => String.eqb (Addr.Country r) "Germany")
                   [Sample.rec_dresden; Sample.rec_wien]
       /\ map fst at_rows
          = filter (fun r => String.eqb (Addr.Country r) "Austria")
                   [Sample.rec_dresden; Sample.rec_wien]
       /\ List.length de_rows + List.length at_rows
          = List.length [Sample.rec_dresden; Sample.rec_wien].
Proof.
  assert (Hd : NoDup (map Addr.address_for_geocoding
                          [Sample.rec_dresden; Sample.rec_wien])).
  { simpl. constructor.
    - intros [H|[]]. discriminate H.
    - constructor; [intros [] | constructor]. }
  split; [discriminate|]. split; [reflexivity|]. split; [reflexivity|].
  split; [constructor|]. split; [exact Hd|]. split; [reflexivity|].
  exact (clean_run_writes_one_row_per_record "AIza-key" Sample.book None
           Sample.gm_found [Sample.rec_dresden; Sample.rec_wien] []
           ltac:(discriminate) eq_refl eq_refl (NoDup_nil string) Hd
           (fun r e _ (He : In e []) _ => match He with end) eq_refl).
Defined.
